(** * energy2mqtt: shallow embedding of the decoders and of the Modbus
    acquisition loop, with the properties of its specification. *)

From Stdlib Require Import ZArith List String Ascii Bool Lia.
From Stdlib Require Import Numbers.DecimalString.
Import ListNotations.
Open Scope string_scope.
Open Scope Z_scope.
Set Warnings "-register-all".

(** ** Common vocabulary *)

(** A Rust computation that either returns or panics (index out of range,
    [todo!], integer overflow, division by zero).  [Ok]/[Err] of the source's
    [Result] are modelled on top of it by the payload type. *)
Inductive outcome (A : Type) : Type :=
| Done : A -> outcome A
| Panic : outcome A.
Arguments Done {A} _.
Arguments Panic {A}.

Definition obind {A B} (m : outcome A) (k : A -> outcome B) : outcome B :=
  match m with Done a => k a | Panic => Panic end.

Notation "x <-- m ;; k" := (obind m (fun x => k))
  (at level 61, m at next level, right associativity).
Notation "' p <-- m ;; k" := (obind m (fun x => match x with p => k end))
  (at level 61, p pattern, m at next level, right associativity).

(** [v[i]] on a [Vec<u8>] / slice: panics out of range. *)
Definition idx (v : list Z) (i : Z) : outcome Z :=
  if i <? 0 then Panic else
  match nth_error v (Z.to_nat i) with Some b => Done b | None => Panic end.

(** Decimal rendering of an integer ([{}] on an integer type). *)
Definition dec (z : Z) : string := NilEmpty.string_of_int (Z.to_int z).

(** A finite binary floating-point number [man * 2^exp]; used for the exact
    value of the [f32]/[f64] numbers the code produces. *)
Record dyadic := Dy { dy_man : Z; dy_exp : Z }.

(** The part of a [serde_json::Value] the decoders produce: strings,
    integer numbers, finite floating numbers (by exact value), and the
    [f64] product [v * scaler] of the OMS scaling step, kept symbolic. *)
Inductive scaler_t :=
| ScPow10 (k : Z)         (* base.powi(k) with base = 10.0 *)
| ScLit (s : string).     (* an f64 literal such as 0.1, 0.0 or 1.0 *)

Inductive Value :=
| VNull
| VBool (b : bool)
| VStr (s : string)
| VInt (z : Z)
| VFloat (d : dyadic)
| VScaled (v : Value) (s : scaler_t)
| VObj (m : list (string * Value)).

(** [Result<T, E>] of the source. *)
Inductive result (E A : Type) : Type :=
| Ok : A -> result E A
| Err : E -> result E A.
Arguments Ok {E A} _.
Arguments Err {E A} _.

Inductive DeviceProtocol := ModbusTCP | OMS | IEC62056 | SML | Unknown.

(** [MeteringData] (mqtt/mod.rs) without its time stamps and ids. *)
Record MeteringData := {
  meter_name : string;
  protocol : DeviceProtocol;
  metered_values : list (string * Value) }.

(** ** Modbus: read cadence (metering_modbus/mod.rs, start_thread) *)
Module Cadence.

(** [let mut hub_inveral_sec: u32 = 60; for device .. { min(..) }] *)
Definition hub_interval (read_intervals : list Z) : Z :=
  fold_left (fun acc ri => Z.min acc ri) read_intervals 60.

(** [device.waits_till_read = device.config.read_interval / hub_inveral_sec]
    (u32 division: panics on a zero divisor), and whether the warning
    [new_sec != device.config.read_interval] is printed. *)
Definition device_waits (hub ri : Z) : outcome (Z * bool) :=
  if hub =? 0 then Panic
  else let w := ri / hub in Done (w, negb (w * hub =? ri)).

Fixpoint all_waits (hub : Z) (ris : list Z) : outcome (list (Z * bool)) :=
  match ris with
  | [] => Done []
  | ri :: rest => w <-- device_waits hub ri ;; ws <-- all_waits hub rest ;; Done (w :: ws)
  end.

(** The hub tick and, per device, [(waits_till_read, warning)]. *)
Definition start_thread_cadence (ris : list Z) : outcome (Z * list (Z * bool)) :=
  let hub := hub_interval ris in
  ws <-- all_waits hub ris ;; Done (hub, ws).

(** The tick loop: one device counter per tick; a read happens when the
    counter reaches [waits_till_read], then it resets.  [reads n] lists the
    ticks [1..n] at which the device is read. *)
Fixpoint tick_loop (waits cur : Z) (tick n : nat) : list nat :=
  match n with
  | O => []
  | S n' =>
      let cur' := cur + 1 in
      if cur' =? waits then tick :: tick_loop waits 0 (S tick) n'
      else tick_loop waits cur' (S tick) n'
  end.

End Cadence.

(** ** IEEE-754 binary32 arithmetic used by the Modbus scaling step.
    Numbers are carried by their exact value; rounding is to nearest, ties
    to even, with a 24-bit significand (normal range: the register values
    and scalers of a register map neither underflow nor overflow f32). *)
Module F32.

(** [n / d] rounded to the nearest integer, ties to even ([n >= 0], [d > 0]). *)
Definition rne_div (n d : Z) : Z :=
  let q := n / d in
  let r := n mod d in
  if 2 * r <? d then q
  else if d <? 2 * r then q + 1
  else if Z.even q then q else q + 1.

(** [p / (q * 2^e)] as a fraction of two integers. *)
Definition scale_frac (p q e : Z) : Z * Z :=
  if e <? 0 then (p * 2 ^ (- e), q) else (p, q * 2 ^ e).

(** Round the positive rational [p / q] to [m * 2^e], [2^23 <= m < 2^24]. *)
Definition round_pos (p q : Z) : Z * Z :=
  let e0 := Z.log2 p - Z.log2 q - 23 in
  let '(n0, d0) := scale_frac p q e0 in
  let e := if n0 / d0 <? 2 ^ 23 then e0 - 1 else e0 in
  let '(n, d) := scale_frac p q e in
  let m := rne_div n d in
  if m =? 2 ^ 24 then (2 ^ 23, e + 1) else (m, e).

(** The f32 nearest to the rational [p / q] ([q > 0]). *)
Definition of_frac (p q : Z) : dyadic :=
  if p =? 0 then Dy 0 0
  else if p <? 0 then let '(m, e) := round_pos (- p) q in Dy (- m) e
  else let '(m, e) := round_pos p q in Dy m e.

(** [v as f32] for an integer [v]. *)
Definition of_int (v : Z) : dyadic := of_frac v 1.

(** [a * b] in f32. *)
Definition mul (a b : dyadic) : dyadic :=
  let m := dy_man a * dy_man b in
  let e := dy_exp a + dy_exp b in
  if e <? 0 then of_frac m (2 ^ (- e)) else of_frac (m * 2 ^ e) 1.

(** [f32::round]: to the nearest integer, halfway cases away from zero.
    The result is an integer (the sign of a zero result is not kept). *)
Definition round (a : dyadic) : Z :=
  let m := dy_man a in
  let e := dy_exp a in
  if 0 <=? e then m * 2 ^ e
  else let d := 2 ^ (- e) in
       if m <? 0 then - ((- m + d / 2) / d) else (m + d / 2) / d.

End F32.

(** ** Modbus: register decoding and value mappings
    (metering_modbus/mod.rs, read_device_registers; registers.rs) *)
Module Modbus.

Inductive ModbusRegisterFormat := Int16 | Int32.

(** [pub struct Mapping { data: String, mapping: serde_json::Value }] *)
Record Mapping := { data : string; mapping : Value }.

(** The part of [ModbusRegister] the value path reads. *)
Record ModbusRegister := {
  reg_name : string;
  format : ModbusRegisterFormat;
  scaler : dyadic;              (* f32, default 1.0 *)
  mappings : list Mapping }.

(** [match reg.format { Int32 => data[0] << 16 | data[1], Int16 => data[0] }]
    on the words returned by [parse_u16] (u16 values widened to u32). *)
Definition register_raw (fmt : ModbusRegisterFormat) (words : list Z) : outcome Z :=
  match fmt with
  | Int32 => w0 <-- idx words 0 ;; w1 <-- idx words 1 ;;
             Done (Z.lor (Z.shiftl w0 16) w1)
  | Int16 => w0 <-- idx words 0 ;; Done w0
  end.

(** [format!("{:?}", v)] for an f32 [v] holding the integer [z]: for
    [|z| <= 2^24] every integer is an f32 and Rust prints it in full followed
    by [".0"]; beyond that Rust prints the shortest round-trip digits, which
    this rendering does not follow. *)
Definition debug_f32_integral (z : Z) : string := dec z ++ ".0".

(** The two mapping loops: first an exact [mapping.data == format!("{:?}", v)],
    then the first [mapping.data == "_"], else the numeric value. *)
Definition apply_mappings (value : Value) (key : string) (ms : list Mapping) : Value :=
  match find (fun m => String.eqb (data m) key) ms with
  | Some m => mapping m
  | None =>
      match find (fun m => String.eqb (data m) "_") ms with
      | Some m => mapping m
      | None => value
      end
  end.

(** [let v = (v as f32 * reg.scaler).round();] *)
Definition scaled_value (raw : Z) (sc : dyadic) : Z :=
  F32.round (F32.mul (F32.of_int raw) sc).

(** The value inserted under [reg.name] for a successful [parse_u16]
    returning [words]. *)
Definition register_value (reg : ModbusRegister) (words : list Z) : outcome Value :=
  raw <-- register_raw (format reg) words ;;
  let v := scaled_value raw (scaler reg) in
  Done (apply_mappings (VFloat (Dy v 0)) (debug_f32_integral v) (mappings reg)).

(** [0.1] and [1.0] as parsed from the register map ([f32::from_str]). *)
Definition f32_1_0 : dyadic := F32.of_frac 1 1.
Definition f32_0_1 : dyadic := F32.of_frac 1 10.

End Modbus.

(** ** Text helpers shared by the decoders *)
Module Txt.

Definition hex_digit (upper : bool) (d : Z) : string :=
  String (ascii_of_nat (Z.to_nat (if d <? 10 then 48 + d
                                  else (if upper then 55 else 87) + d))) EmptyString.

Fixpoint hex_aux (upper : bool) (fuel : nat) (z : Z) : string :=
  match fuel with
  | O => EmptyString
  | S f => if z <? 16 then hex_digit upper z
           else hex_aux upper f (z / 16) ++ hex_digit upper (z mod 16)
  end.

(** [{:x}] / [{:X}] on an unsigned integer: no padding. *)
Definition hex (upper : bool) (z : Z) : string := hex_aux upper 20 z.

(** Left padding with ['0'] to [n] characters ([{:02x}], [{:02}], ...). *)
Fixpoint zeros (n : nat) : string :=
  match n with O => EmptyString | S k => String "0" (zeros k) end.
Definition pad0 (n : nat) (s : string) : string := zeros (n - String.length s) ++ s.

End Txt.

(** ** OMS payload: DIF/VIF records (metering_oms/div_vif_parser.rs) *)
Module DifVif.

(** The [DifHandler] function pointers of [get_dif_function]. *)
Inductive DifHandler :=
| dif_no_data | dif_read_8bit_int | dif_read_16bit_int | dif_read_24bit_int
| dif_read_32bit_int | dif_read_32bit_real | dif_read_48bit_int
| dif_read_64bit_int | dif_read_8digest_bcd | dif_read_12digest_bcd.

(** little-endian unsigned integer from [n] bytes at [pos]: the
    [(start[pos+k] as uN) << 8k | ...] expressions. *)
Fixpoint read_le (start : list Z) (pos : Z) (n : nat) : outcome Z :=
  match n with
  | O => Done 0
  | S k => b <-- idx start pos ;; rest <-- read_le start (pos + 1) k ;;
           Done (Z.lor (Z.shiftl rest 8) b)
  end.

(** [bcd_to_integer_sized]: [for i in (cur_pos..cur_pos+len).rev()]. *)
Fixpoint bcd_loop (start : list Z) (cur_pos : Z) (i : nat) (result : Z) : outcome Z :=
  match i with
  | O => Done result
  | S i' =>
      byte <-- idx start (cur_pos + Z.of_nat i') ;;
      let high := Z.land (Z.shiftr byte 4) 15 in
      let low := Z.land byte 15 in
      bcd_loop start cur_pos i' (result * 100 + (high * 10 + low))
  end.
Definition bcd_to_integer_sized (start : list Z) (cur_pos : Z) (len : nat) : outcome Z :=
  bcd_loop start cur_pos len 0.

Definition run_dif (h : DifHandler) (start : list Z) (cur_pos : Z) : outcome (Z * Value) :=
  match h with
  | dif_no_data => Done (0, VStr "")
  | dif_read_8bit_int => v <-- read_le start cur_pos 1 ;; Done (1, VInt v)
  | dif_read_16bit_int => v <-- read_le start cur_pos 2 ;; Done (2, VInt v)
  | dif_read_24bit_int => v <-- read_le start cur_pos 3 ;; Done (3, VInt v)
  | dif_read_32bit_int => v <-- read_le start cur_pos 4 ;; Done (4, VInt v)
  | dif_read_32bit_real => Done (4, VFloat (Dy 0 0))
  | dif_read_48bit_int => v <-- read_le start cur_pos 6 ;; Done (6, VInt v)
  | dif_read_64bit_int => v <-- read_le start cur_pos 8 ;; Done (8, VInt v)
  | dif_read_8digest_bcd => Done (4, VStr "1111 1111")
  | dif_read_12digest_bcd => v <-- bcd_to_integer_sized start cur_pos 4 ;; Done (4, VInt v)
  end.

(** [get_dif_function]: (bytes to skip, handler, check_further). *)
Definition get_dif_function (start : list Z) (cur_pos : Z) : outcome (Z * DifHandler * bool) :=
  dif <-- idx start cur_pos ;;
  Done (if dif =? 0x00 then (1, dif_no_data, false)
   else if dif =? 0x01 then (1, dif_read_8bit_int, true)
   else if dif =? 0x02 then (1, dif_read_16bit_int, true)
   else if dif =? 0x03 then (1, dif_read_24bit_int, true)
   else if dif =? 0x04 then (1, dif_read_32bit_int, true)
   else if dif =? 0x05 then (1, dif_read_32bit_real, true)
   else if dif =? 0x06 then (1, dif_read_48bit_int, true)
   else if dif =? 0x07 then (1, dif_read_64bit_int, true)
   else if dif =? 0x08 then (1, dif_no_data, false)
   else if dif =? 0x0C then (1, dif_read_12digest_bcd, true)
   else if dif =? 0xF0 then (1, dif_read_8digest_bcd, true)
   else if dif =? 0x2F then (1, dif_no_data, false)
   else (1, dif_no_data, true)).

End DifVif.

Module Vif.
Import DifVif.

Inductive VifHandler := parse_time_point | parse_on_time | vif_handle_binary.

(** [struct VifData] ([scaler] as the f64 expression that computes it). *)
Record VifData := {
  vif : Z; fildname : string; scaler : scaler_t; unit : string;
  vif_function : option VifHandler }.

(** The scaler column of the VIF tables: [base.powi((vif as i32 & mask) + off)]
    or an f64 literal. *)
Inductive scaler_expr := SP (mask off : Z) | SL (lit : string).

Definition eval_scaler (v : Z) (s : scaler_expr) : scaler_t :=
  match s with SP mask off => ScPow10 (Z.land v mask + off) | SL l => ScLit l end.

(** One match arm [lo..=hi => VifData { .. }]. *)
Record arm := Arm { lo : Z; hi : Z; a_name : string; a_scaler : scaler_expr;
                    a_unit : string; a_fun : option VifHandler }.

Definition first_arm (arms : list arm) (key : Z) : option arm :=
  find (fun a => (lo a <=? key) && (key <=? hi a)) arms.

Definition mk (v : Z) (a : arm) : VifData :=
  {| vif := v; fildname := a_name a; scaler := eval_scaler v (a_scaler a);
     unit := a_unit a; vif_function := a_fun a |}.

(** Primary VIF table of [get_vif_function] (the key is [vif & 0x7F];
    the last two arms are written [0b01110000..=01110011] and
    [0b01110100..=01110111] in the source: their upper bounds are the
    decimal literals 1110011 and 1110111). *)
Definition primary_arms : list arm := [
  Arm 0x00 0x07 "energy" (SP 7 (-3)) "Wh" None;
  Arm 0x08 0x0F "energy" (SP 7 (-3)) "J" None;
  Arm 0x10 0x17 "volume" (SP 7 (-6)) "m³" None;
  Arm 0x18 0x1F "mass" (SP 7 (-3)) "kg" None;
  Arm 0x20 0x20 "on_time" (SL "0.0") "s" (Some parse_on_time);
  Arm 0x24 0x27 "operation_time" (SL "0.0") "s" (Some parse_on_time);
  Arm 0x28 0x2F "power" (SP 7 (-3)) "W" None;
  Arm 0x30 0x37 "power" (SP 7 0) "J/h" None;
  Arm 0x38 0x3F "volume_flow" (SP 7 (-6)) "m³/h" None;
  Arm 0x40 0x47 "volume_flow_ext" (SP 7 (-7)) "m³/min" None;
  Arm 0x48 0x4F "volume_flow_ext" (SP 7 (-9)) "m³/s" None;
  Arm 0x50 0x57 "mass_flow" (SP 7 (-3)) "kg/h" None;
  Arm 0x58 0x5B "flow_temperature" (SP 3 (-3)) "°C" None;
  Arm 0x5C 0x5F "return_temperature" (SP 3 (-3)) "°C" None;
  Arm 0x60 0x63 "temperature_difference" (SP 3 (-3)) "K" None;
  Arm 0x64 0x67 "external_temperature" (SP 3 (-3)) "°C" None;
  Arm 0x68 0x6B "pressure" (SP 3 (-3)) "bar" None;
  Arm 0x6C 0x6D "time_of_readout" (SL "0.0") "" (Some parse_time_point);
  Arm 0x6E 0x6E "hca_units" (SL "1.0") "" None;
  Arm 0x70 1110011 "averaging_duration" (SL "0.0") "s" (Some parse_on_time);
  Arm 0x74 1110111 "actuality_duration" (SL "0.0") "s" (Some parse_on_time) ].

(** [get_vif_extension_fb] table (key: second VIF byte [& 0x7F]). *)
Definition fb_arms : list arm := [
  Arm 0x00 0x01 "energy" (SP 1 (-1)) "MWh" None;
  Arm 0x08 0x09 "energy" (SP 1 (-1)) "GJ" None;
  Arm 0x10 0x11 "volume" (SP 1 2) "m³" None;
  Arm 0x18 0x19 "mass" (SP 1 2) "t" None;
  Arm 0x21 0x21 "volume" (SL "0.1") "feet³" None;
  Arm 0x22 0x22 "volume" (SL "0.1") "american_gallon" None;
  Arm 0x23 0x23 "volume" (SL "1.0") "american_gallon" None;
  Arm 0x24 0x24 "volume_flow" (SL "0.001") "american_gallon/min" None;
  Arm 0x25 0x25 "volume_flow" (SL "1.0") "american_gallon/min" None;
  Arm 0x26 0x26 "volume_flow" (SL "1.0") "american_gallon/h" None;
  Arm 0x28 0x29 "power" (SP 1 (-1)) "MW" None;
  Arm 0x30 0x31 "power" (SP 1 (-1)) "GJ/h" None;
  Arm 0x58 0x5B "flow_temperature" (SP 3 (-3)) "°F" None;
  Arm 0x5C 0x5F "return_temperature" (SP 3 (-3)) "°F" None;
  Arm 0x60 0x63 "temperature_difference" (SP 3 (-3)) "°F" None;
  Arm 0x64 0x67 "external_temperature" (SP 3 (-3)) "°F" None;
  Arm 0x70 0x73 "cold_warm_temperature_limit" (SP 3 (-3)) "°F" None;
  Arm 0x74 0x77 "cold_warm_temperature_limit" (SP 3 (-3)) "°C" None;
  Arm 0x78 0x7F "cumul_count_max_power" (SP 7 (-3)) "W" None ].

Definition one (lo' : Z) (n u : string) (h : option VifHandler) : arm :=
  Arm lo' lo' n (SL "1.0") u h.

(** [get_vif_extension_fd] table. *)
Definition fd_arms : list arm := [
  Arm 0x00 0x03 "credit" (SP 3 (-3)) "currency_units" None;
  Arm 0x04 0x07 "debit" (SP 3 (-3)) "currency_units" None;
  one 0x08 "access_number" "count" None;
  one 0x09 "medium" "" None;
  one 0x0A "manufacturer" "" None;
  one 0x0B "parameter_set_identification" "" None;
  one 0x0C "model_version" "" None;
  one 0x0D "hardware_version" "" None;
  one 0x0E "firmware_version" "" None;
  one 0x0F "software_version" "" None;
  one 0x10 "customer_location" "" None;
  one 0x11 "customer" "" None;
  one 0x12 "access_code_user" "" None;
  one 0x13 "access_code_operator" "" None;
  one 0x14 "access_code_system_operator" "" None;
  one 0x15 "access_code_developer" "" None;
  one 0x16 "password" "" None;
  one 0x17 "error_flags" "" (Some vif_handle_binary);
  one 0x18 "error_mask" "" None;
  one 0x19 "reserved_0x19" "" None;
  one 0x1A "digital_output" "" (Some vif_handle_binary);
  one 0x1B "digital_input" "" (Some vif_handle_binary);
  one 0x1C "baudrate" "Baud" None;
  one 0x1D "response_delay_time" "bittimes" None;
  one 0x1E "retry" "" None;
  one 0x1F "reserved_0x1f" "" None;
  one 0x20 "first_storage_for_cyclic_storage" "" None;
  one 0x21 "last_storage_for_cyclic_storage" "" None;
  one 0x22 "size_of_storage_block" "" None;
  one 0x23 "reserved_0x23" "" None;
  Arm 0x24 0x27 "storage_interval" (SL "1.0") "time" None;
  one 0x28 "storage_interval_months" "months" None;
  one 0x29 "storage_interval_years" "years" None;
  one 0x2A "reserved_0x2a" "" None;
  one 0x2B "reserved_0x2b" "" None;
  Arm 0x2C 0x2F "duration_since_last_readout" (SL "1.0") "time" None;
  one 0x30 "start_of_tariff" "datetime" None;
  Arm 0x31 0x33 "duration_of_tariff" (SL "1.0") "time" None;
  Arm 0x34 0x37 "period_of_tariff" (SL "1.0") "time" None;
  one 0x38 "period_of_tariff_months" "months" None;
  one 0x39 "period_of_tariff_years" "years" None;
  one 0x3A "dimensionless" "" None;
  one 0x3B "reserved_0x3b" "" None;
  Arm 0x3C 0x3F "reserved_0x3c_0x3f" (SL "1.0") "" None;
  Arm 0x40 0x4F "voltage" (SP 15 (-9)) "V" None;
  Arm 0x50 0x5F "current" (SP 15 (-12)) "A" None ].

Definition unknown (name u : string) (v : Z) : VifData :=
  {| vif := v; fildname := name; scaler := ScLit "1.0"; unit := u; vif_function := None |}.

Definition get_vif_extension_fb (start : list Z) (cur_pos : Z) : outcome (Z * VifData) :=
  v <-- idx start (cur_pos + 1) ;;
  Done (match first_arm fb_arms (Z.land v 0x7F) with
        | Some a => (2, mk v a)
        | None => (1, unknown ("unknown_at_" ++ dec cur_pos) "" v)
        end).

Definition get_vif_extension_fd (start : list Z) (cur_pos : Z) : outcome (Z * VifData) :=
  v <-- idx start (cur_pos + 1) ;;
  Done (match first_arm fd_arms (Z.land v 0x7F) with
        | Some a => (2, mk v a)
        | None => (2, unknown ("unknown_at_" ++ dec cur_pos) "" v)
        end).

Definition get_vif_function (start : list Z) (cur_pos : Z) : outcome (Z * VifData) :=
  v <-- idx start cur_pos ;;
  if v =? 0xFB then get_vif_extension_fb start cur_pos
  else if v =? 0xFD then get_vif_extension_fd start cur_pos
  else Done (match first_arm primary_arms (Z.land v 0x7F) with
        | Some a => (1, mk v a)
        | None => (1, unknown ("unknown_at_" ++ dec cur_pos ++ "_" ++ Txt.hex false v)
                              "unknown" v)
        end).

End Vif.

(** ** serde_json helpers and the payload walk *)
Module Payload.
Import DifVif Vif.

(** [serde_json::Map::insert]: an existing key is overwritten in place. *)
Fixpoint map_insert (k : string) (v : Value) (m : list (string * Value)) : list (string * Value) :=
  match m with
  | [] => [(k, v)]
  | (k', v') :: rest => if String.eqb k k' then (k, v) :: rest else (k', v') :: map_insert k v rest
  end.

Fixpoint map_get (k : string) (m : list (string * Value)) : option Value :=
  match m with
  | [] => None
  | (k', v) :: rest => if String.eqb k k' then Some v else map_get k rest
  end.

Definition is_number (v : Value) : bool :=
  match v with VInt _ | VFloat _ | VScaled _ _ => true | _ => false end.

(** [Number::as_i64]: integers within the i64 range only. *)
Definition as_i64 (v : Value) : option Z :=
  match v with
  | VInt z => if (- 2 ^ 63 <=? z) && (z <? 2 ^ 63) then Some z else None
  | _ => None
  end.

(** i64 arithmetic of a release build (wrap-around). *)
Definition wrap_i64 (z : Z) : Z := (z + 2 ^ 63) mod 2 ^ 64 - 2 ^ 63.

Definition run_parse_on_time (v : Z) (data : Value) : Value :=
  if negb (is_number data) then VStr "unparseable" else
  match as_i64 data with
  | None => VStr "unparseable"
  | Some time =>
      let n := Z.land v 3 in
      VInt (if n =? 0 then time
            else if n =? 1 then wrap_i64 (time * 60)
            else if n =? 2 then wrap_i64 (time * 60 * 60)
            else wrap_i64 (time * 24 * 60 * 60))
  end.

Definition p2 (z : Z) : string := Txt.pad0 2 (dec z).
Definition p4 (z : Z) : string := Txt.pad0 4 (dec z).

Definition run_parse_time_point (v : Z) (data : Value) : Value :=
  if negb (is_number data) then VStr "unparseable not a number" else
  match as_i64 data with
  | None => VStr "unparseable not i64"
  | Some t0 =>
      let time := t0 mod 2 ^ 32 in
      if Z.land v 1 =? 1 then
        let min := Z.land time 0x3F in
        let hour := Z.land (Z.shiftr time 8) 0x1F in
        let day := Z.land (Z.shiftr time 16) 0x1F in
        let month := Z.land (Z.shiftr time 24) 0x0F in
        let year := Z.lor (Z.shiftr (Z.land (Z.shiftr time 16) 0xE0) 5)
                          (Z.shiftr (Z.land (Z.shiftr time 24) 0xF0) 1) in
        let hy := Z.shiftr (Z.land time 0x60) 5 in
        let hy := if (hy =? 0) && (year <=? 80) then 1 else hy in
        let year := 1900 + 100 * hy + year in
        VStr (p2 day ++ "." ++ p2 month ++ "." ++ p4 year ++ " " ++ p2 hour ++ ":" ++ p2 min)
      else
        let day := Z.land time 0x1F in
        let month := Z.land (Z.shiftr time 8) 0x0F in
        (* [time & 0xE0 >> 5] and [time & 0x60 >> 5]: [>>] binds tighter *)
        let year := Z.lor (Z.land time (Z.shiftr 0xE0 5))
                          (Z.shiftr (Z.land (Z.shiftr time 16) 0xF0) 1) in
        let hy := Z.land time (Z.shiftr 0x60 5) in
        let hy := if (hy =? 0) && (year <=? 80) then 1 else hy in
        let year := 1900 + 100 * hy + year in
        VStr (p2 day ++ "." ++ p2 month ++ "." ++ p4 year)
  end.

Definition run_vif_handle_binary (data : Value) : Value :=
  if negb (is_number data) then VStr "unparseable" else
  match as_i64 data with
  | None => VStr "unparseable"
  | Some d => VStr (Txt.hex true (d mod 2 ^ 64))
  end.

Definition run_vif (h : VifHandler) (v : Z) (data : Value) : Value :=
  match h with
  | parse_time_point => run_parse_time_point v data
  | parse_on_time => run_parse_on_time v data
  | vif_handle_binary => run_vif_handle_binary data
  end.

(** [vif_data.scaler != 1.0] *)
Definition scaler_is_one (s : scaler_t) : bool :=
  match s with ScPow10 k => k =? 0 | ScLit l => String.eqb l "1.0" end.

(** One record at [cur_pos]: the body of the [while] loop. *)
Definition parse_record (payload : list Z) (cur_pos : Z) (ret : list (string * Value))
  : outcome (Z * list (string * Value)) :=
  '(off, handler, check_further) <-- get_dif_function payload cur_pos ;;
  let cur_pos := cur_pos + off in
  if check_further then
    '(off, vd) <-- get_vif_function payload cur_pos ;;
    let cur_pos := cur_pos + off in
    '(off, value) <-- run_dif handler payload cur_pos ;;
    let cur_pos := cur_pos + off in
    let value := match vif_function vd with
                 | Some f => run_vif f (vif vd) value
                 | None => if is_number value && negb (scaler_is_one (scaler vd))
                           then VScaled value (scaler vd) else value
                 end in
    let ret := map_insert (fildname vd) value ret in
    Done (cur_pos, map_insert (fildname vd ++ "_unit") (VStr (unit vd)) ret)
  else Done (cur_pos, ret).

(** [while cur_pos < payload.len()]; every round advances [cur_pos] by the
    DIF byte at least, so [length payload] rounds always suffice. *)
Fixpoint payload_loop (fuel : nat) (payload : list Z) (cur_pos : Z) (ret : list (string * Value))
  : outcome (list (string * Value)) :=
  match fuel with
  | O => Panic
  | S f =>
      if cur_pos <? Z.of_nat (List.length payload) then
        '(cur_pos', ret') <-- parse_record payload cur_pos ret ;;
        payload_loop f payload cur_pos' ret'
      else Done ret
  end.

Definition parse_payload (payload : list Z) : outcome (list (string * Value)) :=
  payload_loop (S (List.length payload)) payload 0 [].

End Payload.

(** ** OMS telegrams (metering_oms/mod.rs, metering_oms/utils.rs) *)
Module Oms.
Import Payload.

Inductive OmsParseError :=
| TelegramTooShort | TelegramTooLong | UnsupportedTelegramType | CRCMissMatch
| WiredProtocolNotSupported | SecurityModeNotSupported | DecryptionFailed
| SecurityCiTypeNotSupported | SensorNotConfigured.

(** CRC-16 of the [crc16] crate's [EN_13757] state: polynomial 0x3D65,
    initial value 0, not reflected, final XOR 0xFFFF. *)
Fixpoint crc_bits (n : nat) (crc : Z) : Z :=
  match n with
  | O => crc
  | S k => crc_bits k (if Z.testbit crc 15
                       then Z.land (Z.lxor (Z.shiftl crc 1) 0x3D65) 0xFFFF
                       else Z.land (Z.shiftl crc 1) 0xFFFF)
  end.
Definition crc_update (crc b : Z) : Z := crc_bits 8 (Z.lxor crc (Z.shiftl b 8)).
Definition crc_get (crc : Z) : Z := Z.lxor crc 0xFFFF.

(** [for i in start..end_of_data_to_crc { state.update(..); result.push(..) }] *)
Fixpoint crc_block (tel : list Z) (i : Z) (n : nat) (crc : Z) (acc : list Z)
  : outcome (Z * list Z) :=
  match n with
  | O => Done (crc, acc)
  | S k => b <-- idx tel i ;; crc_block tel (i + 1) k (crc_update crc b) (acc ++ [b])
  end.

(** One round of the [loop] of [verifiy_crc]; [inl] continues at the new
    [start], [inr] leaves the function. *)
Definition crc_round (tel : list Z) (start : Z) (first_block : bool) (result0 : list Z)
  : outcome ((Z * list Z) + result OmsParseError (list Z)) :=
  let tlen := Z.of_nat (List.length tel) in
  let len := if first_block then 10 else 16 in
  (* [telegram.len() - start - 2] on usize: a debug build panics on the
     underflow, a release build wraps and the loop below indexes out of
     range; both panic *)
  let len := if tlen <? start + 17 then tlen - start - 2 else len in
  if len <? 0 then Panic else
  let end_ := start + len in
  '(crc, result1) <-- crc_block tel start (Z.to_nat len) 0 result0 ;;
  let s := crc_get crc in
  b0 <-- idx tel end_ ;;
  if negb (Z.shiftr s 8 =? b0) then Done (inr (Err CRCMissMatch)) else
  b1 <-- idx tel (end_ + 1) ;;
  if negb (Z.land s 0xFF =? b1) then Done (inr (Err CRCMissMatch)) else
  let start := end_ + 2 in
  if tlen =? start then Done (inr (Ok result1)) else Done (inl (start, result1)).

(** Each round moves [start] forward by at least two bytes, so
    [length telegram] rounds always suffice. *)
Fixpoint crc_loop (fuel : nat) (tel : list Z) (start : Z) (first_block : bool) (acc : list Z)
  : outcome (result OmsParseError (list Z)) :=
  match fuel with
  | O => Panic
  | S f => r <-- crc_round tel start first_block acc ;;
           match r with
           | inl (start', acc') => crc_loop f tel start' false acc'
           | inr res => Done res
           end
  end.

Definition verifiy_crc (tel : list Z) : outcome (result OmsParseError (list Z)) :=
  crc_loop (S (List.length tel)) tel 0 true [].

(** [OmsConfig] entries of the [oms] configuration section. *)
Record OmsConfig := { id : string; name : string; key : string }.

Definition get_meter_config (conf : list OmsConfig) (din_addr : string) : option OmsConfig :=
  find (fun c => String.eqb (id c) din_addr) conf.

Definition chr (z : Z) : string := String (ascii_of_nat (Z.to_nat z)) EmptyString.

Definition get_manufacturer (tel : list Z) : outcome string :=
  t3 <-- idx tel 3 ;; t2 <-- idx tel 2 ;;
  let m := Z.shiftl t3 8 + t2 in
  Done (chr (Z.land (Z.shiftr m 10) 0x1F + 64) ++ chr (Z.land (Z.shiftr m 5) 0x1F + 64)
        ++ chr (Z.land m 0x1F + 64)).

Definition hex2 (z : Z) : string := Txt.pad0 2 (Txt.hex false z).

Definition get_ident_no (tel : list Z) : outcome string :=
  t7 <-- idx tel 7 ;; t6 <-- idx tel 6 ;; t5 <-- idx tel 5 ;; t4 <-- idx tel 4 ;;
  Done (hex2 t7 ++ hex2 t6 ++ hex2 t5 ++ hex2 t4).

Definition get_device_medium (device_type : string) : string :=
  match device_type with
  | "2" => "Electricity" | "3" => "Gas" | "4" => "Heat" | "6" => "Water (hot)"
  | "7" => "Water (cold)" | "8" => "Heat Cost Allocator" | "A" => "Cooling"
  | "B" => "Cooling" | "C" => "Heat" | "D" => "Heat / Cooling Combined"
  | "15" => "Water (hot)" | "16" => "Water (cold)" | "20" => "Breaker / Valve"
  | "21" => "Breaker / Valve" | _ => "unknown"
  end%string.

(** [remove_oms_filler]: drop the two leading bytes and the trailing run
    of 0x2F ([original.len() >= 2] at its only call). *)
Fixpoint count_leading_2f (l : list Z) : nat :=
  match l with b :: r => if b =? 0x2F then S (count_leading_2f r) else O | [] => O end.

Definition remove_oms_filler (original : list Z) : list Z :=
  let ret := skipn 2 original in
  let element_to_remove := (count_leading_2f (List.rev ret) + 2)%nat in
  firstn (List.length original - element_to_remove) ret.

(** [hex::decode(..).unwrap_or_default()] *)
Definition hex_val (c : ascii) : option Z :=
  let n := Z.of_nat (nat_of_ascii c) in
  if (48 <=? n) && (n <=? 57) then Some (n - 48)
  else if (97 <=? n) && (n <=? 102) then Some (n - 87)
  else if (65 <=? n) && (n <=? 70) then Some (n - 55)
  else None.

Fixpoint hex_decode_aux (s : string) : option (list Z) :=
  match s with
  | EmptyString => Some []
  | String a (String b rest) =>
      match hex_val a, hex_val b, hex_decode_aux rest with
      | Some x, Some y, Some r => Some ((16 * x + y) :: r)
      | _, _, _ => None
      end
  | String _ EmptyString => None
  end.

Definition hex_decode (s : string) : list Z :=
  match hex_decode_aux s with Some l => l | None => [] end.

(** The transport-layer fields read before the security mode is known. *)
Record OmsHeader := {
  h_telegram : list Z;        (* after CRC stripping *)
  h_config : OmsConfig;
  h_access_no : Z;
  h_config_field : Z;
  h_proto : list (string * Value) }.

Definition security_mode (h : OmsHeader) : Z := Z.land (Z.shiftr (h_config_field h) 8) 0x1F.

Definition tpl_no_header_ids : list Z := [0x66; 0x70; 0x71].
Definition tpl_short_header_ids : list Z :=
  [0x67; 0x6E; 0x74; 0x7A; 0x7D; 0x7F; 0x88; 0x9E; 0xC1; 0xC4].
Definition tpl_long_header_ids : list Z :=
  [0x68; 0x6F; 0x72; 0x75; 0x7C; 0x7E; 0x9F; 0xC2; 0xC5].

Definition contains (l : list Z) (x : Z) : bool := existsb (Z.eqb x) l.

(** [parse_oms_telegram] up to the security-mode match. *)
Definition oms_transport (conf : list OmsConfig) (telegram0 : list Z) (with_crc : bool)
  : outcome (result OmsParseError OmsHeader) :=
  t <-- (if with_crc then verifiy_crc telegram0 else Done (Ok telegram0)) ;;
  match t with Err e => Done (Err e) | Ok telegram =>
  let telegram_len := Z.of_nat (List.length telegram) in
  if telegram_len <? 10 then Done (Err TelegramTooShort) else
  if 255 <? telegram_len then Done (Err TelegramTooLong) else
  len <-- idx telegram 0 ;;
  if telegram_len <? len then Done (Err TelegramTooShort) else
  let proto := [("type", VStr "oms"); ("crc_verified", VBool with_crc)] in
  c <-- idx telegram 1 ;;
  if negb (c =? 0x44) then Done (Err UnsupportedTelegramType) else
  let proto := map_insert "c_field" (VStr "SND_NR") proto in
  manfucturer <-- get_manufacturer telegram ;;
  let proto := map_insert "manufacturer" (VStr manfucturer) proto in
  ident_no <-- get_ident_no telegram ;;
  let proto := map_insert "device_number" (VStr ident_no) proto in
  t8 <-- idx telegram 8 ;;
  let version := hex2 t8 in
  let proto := map_insert "version_number" (VStr version) proto in
  t9 <-- idx telegram 9 ;;
  let device_type := Txt.hex false t9 in
  let proto := map_insert "device_medium" (VStr (get_device_medium device_type)) proto in
  let din_addr := device_type ++ manfucturer ++ version ++ ident_no in
  let proto := map_insert "din_addr_sender" (VStr din_addr) proto in
  let proto := map_insert "din_addr_meter" (VStr din_addr) proto in
  match get_meter_config conf din_addr with
  | None => Done (Err SensorNotConfigured)
  | Some config =>
      ci <-- idx telegram 10 ;;
      if contains tpl_short_header_ids ci then
        let proto := map_insert "ci_field" (VStr "short") proto in
        access_no <-- idx telegram 11 ;;
        status <-- idx telegram 12 ;;
        t14 <-- idx telegram 14 ;; t13 <-- idx telegram 13 ;;
        let config_field := Z.lor (Z.shiftl t14 8) t13 in
        let st := Z.land status 3 in
        let proto := map_insert "status" (VStr (if st =? 0 then "ok"
                       else if st =? 1 then "application busy"
                       else if st =? 2 then "application error" else "alarm")) proto in
        let proto := map_insert "transmission_counter" (VInt access_no) proto in
        Done (Ok {| h_telegram := telegram; h_config := config; h_access_no := access_no;
                    h_config_field := config_field; h_proto := proto |})
      else if contains tpl_long_header_ids ci then Panic   (* todo!("Support long header") *)
      else if contains tpl_no_header_ids ci then Done (Err WiredProtocolNotSupported)
      else Done (Err SecurityCiTypeNotSupported)
  end
  end.

Section Decode.

(** AES-128-CBC decryption without padding of the [aes]/[cbc] crates:
    [None] when the ciphertext is not a whole number of blocks. *)
Variable aes128_cbc_decrypt : list Z -> list Z -> list Z -> option (list Z).

(** [utils::decrypt_mode5]; [GenericArray::clone_from_slice] panics unless
    the key has 16 bytes. *)
Definition decrypt_mode5 (telegram : list Z) (access_no : Z) (start_encryption : nat)
  (key : list Z) : outcome (list Z) :=
  iv <-- (t2 <-- idx telegram 2 ;; t3 <-- idx telegram 3 ;; t4 <-- idx telegram 4 ;;
          t5 <-- idx telegram 5 ;; t6 <-- idx telegram 6 ;; t7 <-- idx telegram 7 ;;
          t8 <-- idx telegram 8 ;; t9 <-- idx telegram 9 ;;
          Done ([t2; t3; t4; t5; t6; t7; t8; t9] ++ repeat access_no 8)%list) ;;
  if (start_encryption <=? List.length telegram)%nat then
    let ciphertext := skipn start_encryption telegram in
    if negb (List.length key =? 16)%nat then Panic else
    Done (match aes128_cbc_decrypt key iv ciphertext with Some d => d | None => [] end)
  else Panic.

Definition hex_upper_bytes (l : list Z) : string :=
  fold_right (fun b acc => Txt.pad0 2 (Txt.hex true b) ++ acc) EmptyString l.

(** The security-mode match and the construction of the record. *)
Definition oms_security (h : OmsHeader) : outcome (result OmsParseError MeteringData) :=
  let sm := security_mode h in
  dec <-- (if sm =? 5 then
             let key := hex_decode (key (h_config h)) in
             d <-- decrypt_mode5 (h_telegram h) (h_access_no h) 15 key ;;
             if (List.length d <? 2)%nat then Done (Err DecryptionFailed) else
             d0 <-- idx d 0 ;; d1 <-- idx d 1 ;;
             if negb (d0 =? 0x2F) || negb (d1 =? 0x2F) then Done (Err DecryptionFailed)
             else Done (Ok (remove_oms_filler d, name (h_config h),
                            map_insert "security_mode" (VInt sm) (h_proto h)))
           else if sm =? 7 then Done (Ok ([], "", h_proto h))
           else Done (Err SecurityModeNotSupported)) ;;
  match dec with
  | Err e => Done (Err e)
  | Ok (dec_data, mname, proto) =>
      let mv := map_insert "payload" (VStr (hex_upper_bytes dec_data)) [] in
      parsed <-- parse_payload dec_data ;;
      let mv := fold_left (fun m kv => map_insert (fst kv) (snd kv) m) parsed mv in
      let mv := map_insert "proto" (VObj proto) mv in
      Done (Ok {| meter_name := mname; protocol := OMS; metered_values := mv |})
  end.

Definition parse_oms_telegram (conf : list OmsConfig) (telegram : list Z) (with_crc : bool)
  : outcome (result OmsParseError MeteringData) :=
  r <-- oms_transport conf telegram with_crc ;;
  match r with Err e => Done (Err e) | Ok h => oms_security h end.

End Decode.

End Oms.

(** ** Rust [&str] operations used by the text decoders (ASCII text; Rust's
    [trim] also strips the non-ASCII Unicode white space characters, which
    ASCII telegrams do not contain). *)
Module Str.

(** [str::split(c)]: pieces between the separators, empty ones included. *)
Fixpoint split (c : ascii) (s : string) : list string :=
  match s with
  | EmptyString => [EmptyString]
  | String a rest =>
      if Ascii.eqb a c then EmptyString :: split c rest
      else match split c rest with
           | p :: ps => String a p :: ps
           | [] => [String a EmptyString]
           end
  end.

Fixpoint contains_char (c : ascii) (s : string) : bool :=
  match s with EmptyString => false | String a r => Ascii.eqb a c || contains_char c r end.

Definition starts_with (c : ascii) (s : string) : bool :=
  match s with String a _ => Ascii.eqb a c | EmptyString => false end.

Definition is_whitespace (a : ascii) : bool :=
  let n := nat_of_ascii a in ((9 <=? n) && (n <=? 13))%nat || (n =? 32)%nat.

Fixpoint trim_start (s : string) : string :=
  match s with
  | String a r => if is_whitespace a then trim_start r else s
  | EmptyString => EmptyString
  end.

Definition rev_str (s : string) : string := string_of_list_ascii (List.rev (list_ascii_of_string s)).

Definition trim_end (s : string) : string := rev_str (trim_start (rev_str s)).
Definition trim (s : string) : string := trim_end (trim_start s).

(** [str::find(c)] / [str::rfind(c)] as byte indices. *)
Fixpoint find (c : ascii) (s : string) : option nat :=
  match s with
  | EmptyString => None
  | String a r => if Ascii.eqb a c then Some O else option_map S (find c r)
  end.

Fixpoint rfind (c : ascii) (s : string) : option nat :=
  match s with
  | EmptyString => None
  | String a r =>
      match rfind c r with
      | Some i => Some (S i)
      | None => if Ascii.eqb a c then Some O else None
      end
  end.

(** [&s[i..j]] on ASCII text. *)
Definition slice (s : string) (i j : nat) : string := substring i (j - i) s.

(** [str::lines]: split after each ['\n'], strip the ["\n"] or ["\r\n"]
    terminator; no final empty line after a trailing terminator. *)
Fixpoint lines_aux (s : string) (cur : string) : list string :=
  match s with
  | EmptyString => if String.eqb cur EmptyString then [] else [rev_str cur]
  | String a r =>
      if Ascii.eqb a "010"%char then
        let line := match cur with
                    | String b cur' => if Ascii.eqb b "013"%char then cur' else cur
                    | EmptyString => EmptyString
                    end in
        rev_str line :: lines_aux r EmptyString
      else lines_aux r (String a cur)
  end.
Definition lines (s : string) : list string := lines_aux s EmptyString.

(** [s.parse::<u8>().is_ok()]: an optional ['+'], then one or more decimal
    digits, value at most 255. *)
Fixpoint digits_value (s : string) (acc : Z) : option Z :=
  match s with
  | EmptyString => Some acc
  | String a r =>
      let n := Z.of_nat (nat_of_ascii a) in
      if (48 <=? n) && (n <=? 57) then
        let acc' := acc * 10 + (n - 48) in
        if 255 <? acc' then None else digits_value r acc'
      else None
  end.

Definition parse_u8 (s : string) : option Z :=
  match s with
  | EmptyString => None
  | String "+" EmptyString => None
  | String "-" EmptyString => None
  | String "+" r => digits_value r 0
  | _ => digits_value s 0
  end.

End Str.

(** ** OBIS utilities (obis_utils/mod.rs) *)
Module ObisUtils.

Definition validate_obis_code (code : string) : bool :=
  let parts := Str.split ":" code in
  match parts with
  | [p0; p1] =>
      let ab_parts := Str.split "-" p0 in
      if negb (List.length ab_parts =? 2)%nat then false else
      let cde_part := p1 in
      let cde_parts := if Str.contains_char "*" cde_part
                       then Str.split "." (List.hd EmptyString (Str.split "*" cde_part))
                       else Str.split "." cde_part in
      if negb (List.length cde_parts =? 3)%nat then false else
      forallb (fun part => match Str.parse_u8 part with Some _ => true | None => false end)
              (ab_parts ++ cde_parts)
  | _ => false
  end.

Definition normalize_obis_code (code : string) : string := Str.trim code.

Definition extract_unit (value_content : string) : option string :=
  match Str.rfind "*" value_content with
  | Some star_pos =>
      let u := substring (S star_pos) (String.length value_content) value_content in
      if String.eqb u EmptyString then None else Some u
  | None => None
  end.

End ObisUtils.

(** ** IEC 62056-21 telegrams (metering_62056/mod.rs, utils.rs, obis_parser.rs) *)
Module Iec.
Import Payload.

Inductive Iec62056ParseError :=
| InvalidFormat | UnsupportedMode | InvalidObisCode | ChecksumFailed
| DeviceNotConfigured | MissingIdentification | InvalidDataLine.

Record DeviceIdentification := {
  manufacturer : string; identification : string; mode : string; full_id : string }.

Definition determine_protocol_mode (identification : string) : string :=
  if Str.contains_char "@" identification then "C"
  else if (10 <? String.length identification)%nat then "D"
  else "A".

Definition parse_identification_line (line : string)
  : result Iec62056ParseError DeviceIdentification :=
  if negb (Str.starts_with "/" line) then Err MissingIdentification else
  let content := substring 1 (String.length line) line in
  if (String.length content <? 3)%nat then Err InvalidFormat else
  let manufacturer := substring 0 3 content in
  let identification := content in
  Ok {| manufacturer := manufacturer; identification := identification;
        mode := determine_protocol_mode identification;
        full_id := manufacturer ++ identification |}.

Record ObisData := { code : string; value : string; unit : option string }.

Definition parse_obis_line (line0 : string) : result Iec62056ParseError ObisData :=
  let line := Str.trim line0 in
  match Str.find "(" line, Str.rfind ")" line with
  | Some paren_start, Some paren_end =>
      if (paren_end <=? paren_start)%nat then Err InvalidDataLine else
      let obis_code := ObisUtils.normalize_obis_code (Str.slice line 0 paren_start) in
      let value_content := Str.slice line (S paren_start) paren_end in
      Ok {| code := obis_code; value := value_content;
            unit := ObisUtils.extract_unit value_content |}
  | _, _ => Err InvalidDataLine
  end.

(** [for line in &lines[1..]]: skip blank lines, stop at ['!'], insert
    every line that parses. *)
Fixpoint data_lines (ls : list string) (mv : list (string * Value)) : list (string * Value) :=
  match ls with
  | [] => mv
  | line :: rest =>
      if String.eqb (Str.trim line) EmptyString then data_lines rest mv
      else if Str.starts_with "!" line then mv
      else match parse_obis_line line with
           | Ok d =>
               let mv := map_insert (code d) (VStr (value d)) mv in
               let mv := match unit d with
                         | Some u => map_insert (code d ++ "_unit") (VStr u) mv
                         | None => mv end in
               data_lines rest mv
           | Err _ => data_lines rest mv
           end
  end.

(** [parse_iec62056_telegram] on [telegram.lines().collect()]. *)
Definition parse_lines (lines : list string) : result Iec62056ParseError MeteringData :=
  match lines with
  | [] => Err InvalidFormat
  | identification_line :: rest =>
      if negb (Str.starts_with "/" identification_line) then Err MissingIdentification else
      match parse_identification_line identification_line with
      | Err e => Err e
      | Ok device_info =>
          let proto := [("type", VStr "iec62056");
                        ("manufacturer", VStr (manufacturer device_info));
                        ("identification", VStr (identification device_info));
                        ("mode", VStr (mode device_info))] in
          let mv := data_lines rest [] in
          Ok {| meter_name := full_id device_info; protocol := IEC62056;
                metered_values := map_insert "proto" (VObj proto) mv |}
      end
  end.

Definition parse_iec62056_telegram (telegram : string) : result Iec62056ParseError MeteringData :=
  parse_lines (Str.lines telegram).

(** The block check character as the specification defines it: the XOR of
    the bytes from the character after ['/'] through ['!'] inclusive.  The
    parser never computes one ([utils::calculate_checksum], a byte sum, has
    no caller); this definition only states what a check would compare. *)
Fixpoint xor_upto_bang (s : string) (acc : Z) : Z :=
  match s with
  | EmptyString => acc
  | String a r =>
      let acc := Z.lxor acc (Z.of_nat (nat_of_ascii a)) in
      if Ascii.eqb a "!" then acc else xor_upto_bang r acc
  end.

Definition bcc (telegram : string) : Z :=
  match telegram with
  | String "/" r => xor_upto_bang r 0
  | _ => xor_upto_bang telegram 0
  end.

End Iec.

(** ** SML TLV decoding (metering_sml/parser.rs, struct SmlParser) *)
Module Sml.

Inductive SmlError := ParseError (msg : string) | InvalidMessage.

(** [SmlParser { data, pos }]; each [&mut self] method maps a parser state
    to its result and the new state. *)
Record SmlParser := { sdata : list Z; pos : nat }.

Definition st (A : Type) := SmlParser -> outcome (result SmlError A * SmlParser).

Definition byte_at (p : SmlParser) (i : nat) : outcome Z := idx (sdata p) (Z.of_nat i).

Definition parse_type_length : st (Z * nat) := fun p =>
  if (List.length (sdata p) <=? pos p)%nat
  then Done (Err (ParseError "Unexpected end of data"), p) else
  first_byte <-- byte_at p (pos p) ;;
  let p := {| sdata := sdata p; pos := S (pos p) |} in
  let type_field := Z.land (Z.shiftr first_byte 4) 0x07 in
  let length_field := Z.land first_byte 0x0F in
  if length_field =? 0x0F then
    if (List.length (sdata p) <=? pos p)%nat
    then Done (Err (ParseError "Unexpected end in extended length"), p) else
    extended <-- byte_at p (pos p) ;;
    Done (Ok (type_field, Z.to_nat extended), {| sdata := sdata p; pos := S (pos p) |})
  else Done (Ok (type_field, Z.to_nat length_field), p).

Definition parse_octet_string : st (option (list Z)) := fun p0 =>
  '(r, p) <-- parse_type_length p0 ;;
  match r with
  | Err e => Done (Err e, p)
  | Ok (type_field, length) =>
      if type_field =? 0 then Done (Ok None, p)
      else if negb (type_field =? 0) && (0 <? length)%nat then
        if (List.length (sdata p) <? pos p + length)%nat
        then Done (Err (ParseError "Octet string extends beyond data"), p)
        else Done (Ok (Some (firstn length (skipn (pos p) (sdata p)))),
                   {| sdata := sdata p; pos := pos p + length |})
      else Done (Ok None, p)
  end.

Definition new (data : list Z) : SmlParser := {| sdata := data; pos := 0 |}.

End Sml.

(** ** Concrete inputs of the scenarios *)
Module Inputs.
Import Modbus.

(** A register with the mappings of scenario S5 (Int16, scaler 1.0). *)
Definition s5_register : ModbusRegister :=
  {| reg_name := "state"; format := Int16; scaler := f32_1_0;
     mappings := [ {| data := "1"; mapping := VStr "on" |};
                   {| data := "_"; mapping := VStr "unknown" |} ] |}.

(** The Int32 holding register of scenario S4 (scaler 0.1). *)
Definition s4_register : ModbusRegister :=
  {| reg_name := "power"; format := Int32; scaler := f32_0_1; mappings := [] |}.

(** An OMS device configured for DIN address 3ELS3312345678. *)
Definition oms_conf : list Oms.OmsConfig :=
  [ {| Oms.id := "3ELS3312345678"; Oms.name := "water";
       Oms.key := "0102030405060708090A0B0C0D0E0F11" |} ].

(** A short-header SND_NR telegram of that device, without CRC blocks,
    whose configuration field (bytes 13..14) is [cf_lo], [cf_hi]. *)
Definition oms_tel (cf_lo cf_hi : Z) : list Z :=
  [0x0F; 0x44; 0x93; 0x15; 0x78; 0x56; 0x34; 0x12; 0x33; 0x03;
   0x7A; 0x2A; 0x00; cf_lo; cf_hi].

(** An AES implementation that accepts nothing (the decryption is never
    reached by these telegrams). *)
Definition no_aes : list Z -> list Z -> list Z -> option (list Z) := fun _ _ _ => None.

(** Scenario S2 with a checksum character after ['!'] ("Z", not the BCC). *)
Definition iec_tel_bad_bcc : string :=
  "/ELS5\@V5.3" ++ String "010" "1-0:1.8.1(000123.456*kWh)" ++ String "010" "!Z".

(** An SML message of unknown type 0x0999 with an empty body:
    transaction id, group number, abort-on-error, type and body, CRC and
    end of message. *)
Definition sml_one_message : list Z :=
  [0x01; 0x61; 0x05; 0x61; 0x00; 0x62; 0x09; 0x99; 0x70; 0x01; 0x61; 0x00].

End Inputs.

(** ** SML parser: the remaining methods of [SmlParser] (metering_sml/parser.rs) *)
Module SmlGrammar.
Import Sml.

(** [enum SmlValue] (metering_sml/structs.rs); integers by value. *)
Inductive SmlValue :=
| Bool (b : bool)
| Int8 (z : Z) | Int16 (z : Z) | Int32 (z : Z) | Int64 (z : Z)
| UInt8 (z : Z) | UInt16 (z : Z) | UInt32 (z : Z) | UInt64 (z : Z)
| OctetString (bytes : list Z)
| List (values : list SmlValue).

Inductive SmlTree := mkSmlTree {
  parameter_name : option (list Z);
  parameter_value : option SmlValue;
  child_list : option (list SmlTree) }.

Record SmlListEntry := {
  obis_code : option (list Z); status : option Z; val_time : option Z;
  unit : option Z; scaler : option Z; value : option SmlValue;
  value_signature : option (list Z) }.

(** The three responses share field names in the source ([server_id]);
    their projections carry a prefix here. *)
Record SmlGetListResponse := {
  gl_client_id : option (list Z); gl_server_id : option (list Z);
  gl_list_name : option (list Z); gl_act_sensor_time : option Z;
  gl_val_list : list SmlListEntry; gl_list_signature : option (list Z);
  gl_act_gateway_time : option Z }.

Record SmlGetProcParameterResponse := {
  gp_server_id : option (list Z); gp_parameter_tree_path : list Z;
  gp_parameter_tree : option SmlTree }.

Record SmlAttentionMessage := {
  at_server_id : option (list Z); at_attention_no : list Z;
  at_attention_msg : option (list Z); at_attention_details : option SmlTree }.

Record SmlMessageBody := {
  msg_type : Z;
  get_list_response : option SmlGetListResponse;
  get_proc_parameter_response : option SmlGetProcParameterResponse;
  attention_response : option SmlAttentionMessage }.

Record SmlMessage := {
  transaction_id : list Z; group_no : Z; abort_on_error : Z;
  message_body : SmlMessageBody; crc : option Z; end_of_message : Z;
  client_id : option (list Z) }.

Record SmlFile := { messages : list SmlMessage }.

(** The [?] operator on a method of [&mut self]: the position reached by a
    failing call is kept. *)
Definition sbind {A B} (m : st A) (k : A -> st B) : st B := fun p0 =>
  '(r, p) <-- m p0 ;;
  match r with Err e => Done (Err e, p) | Ok a => k a p end.
Definition sret {A} (a : A) : st A := fun p => Done (Ok a, p).
Definition sfail {A} (e : SmlError) : st A := fun p => Done (Err e, p).

Notation "x <-? m ;; k" := (sbind m (fun x => k))
  (at level 61, m at next level, right associativity).
Notation "' pat <-? m ;; k" := (sbind m (fun x => match x with pat => k end))
  (at level 61, pat pattern, m at next level, right associativity).

Definition at_pos (p : SmlParser) (n : nat) : SmlParser :=
  {| sdata := sdata p; pos := n |}.

(** [self.data[self.pos + k]] for [k < n]. *)
Fixpoint bytes_at (p : SmlParser) (i n : nat) : outcome (list Z) :=
  match n with
  | O => Done []
  | S k => b <-- byte_at p i ;; r <-- bytes_at p (S i) k ;; Done (b :: r)
  end.

(** [uN::from_be_bytes] and the two's-complement reading of [iN]. *)
Definition from_be_bytes (bs : list Z) : Z := fold_left (fun acc b => acc * 256 + b) bs 0.
Definition to_signed (bits : Z) (u : Z) : Z :=
  if u <? 2 ^ (bits - 1) then u else u - 2 ^ bits.

(** The common body of [parse_unsigned8 .. parse_signed64] and [parse_bool]:
    the type field is not looked at; the length must be [n]; then [n]
    bytes are read.  (For [n = 1] the source tests [pos >= len], which is
    [pos + 1 > len].) *)
Definition fixed {A} (len_msg : string) (n : nat) (conv : list Z -> A) : st A :=
  '(_, length) <-? parse_type_length ;;
  fun p =>
  if negb (length =? n)%nat then Done (Err (ParseError len_msg), p) else
  if (List.length (sdata p) <? pos p + n)%nat
  then Done (Err (ParseError "Unexpected end of data"), p) else
  bs <-- bytes_at p (pos p) n ;;
  Done (Ok (conv bs), at_pos p (pos p + n)).

(** The optional variants: type 0 is [None] before the length is checked. *)
Definition opt_fixed {A} (len_msg : string) (n : nat) (conv : list Z -> A) : st (option A) :=
  '(type_field, length) <-? parse_type_length ;;
  if type_field =? 0 then sret None else
  fun p =>
  if negb (length =? n)%nat then Done (Err (ParseError len_msg), p) else
  if (List.length (sdata p) <? pos p + n)%nat
  then Done (Err (ParseError "Unexpected end of data"), p) else
  bs <-- bytes_at p (pos p) n ;;
  Done (Ok (Some (conv bs)), at_pos p (pos p + n)).

Definition parse_unsigned8 : st Z := fixed "Invalid unsigned8 length" 1 from_be_bytes.
Definition parse_optional_unsigned8 : st (option Z) :=
  opt_fixed "Invalid optional unsigned8 length" 1 from_be_bytes.
Definition parse_signed8 : st Z :=
  fixed "Invalid signed8 length" 1 (fun bs => to_signed 8 (from_be_bytes bs)).
Definition parse_optional_signed8 : st (option Z) :=
  opt_fixed "Invalid optional signed8 length" 1 (fun bs => to_signed 8 (from_be_bytes bs)).
Definition parse_unsigned16 : st Z := fixed "Invalid unsigned16 length" 2 from_be_bytes.
Definition parse_optional_unsigned16 : st (option Z) :=
  opt_fixed "Invalid optional unsigned16 length" 2 from_be_bytes.
Definition parse_unsigned32 : st Z := fixed "Invalid unsigned32 length" 4 from_be_bytes.
Definition parse_optional_unsigned32 : st (option Z) :=
  opt_fixed "Invalid optional unsigned32 length" 4 from_be_bytes.
Definition parse_unsigned64 : st Z := fixed "Invalid unsigned64 length" 8 from_be_bytes.
Definition parse_optional_unsigned64 : st (option Z) :=
  opt_fixed "Invalid optional unsigned64 length" 8 from_be_bytes.
Definition parse_bool : st bool :=
  fixed "Invalid bool length" 1 (fun bs => negb (from_be_bytes bs =? 0)).
Definition parse_signed16 : st Z :=
  fixed "Invalid signed16 length" 2 (fun bs => to_signed 16 (from_be_bytes bs)).
Definition parse_signed32 : st Z :=
  fixed "Invalid signed32 length" 4 (fun bs => to_signed 32 (from_be_bytes bs)).
Definition parse_signed64 : st Z :=
  fixed "Invalid signed64 length" 8 (fun bs => to_signed 64 (from_be_bytes bs)).

Definition parse_optional_octet_string : st (option (list Z)) := parse_octet_string.

Definition parse_list_length : st nat :=
  '(type_field, length) <-? parse_type_length ;;
  if negb (type_field =? 7) then sfail (ParseError "Expected list type") else sret length.

(** [parse_optional_value]; [self.pos -= 1] rewinds one byte (the type
    byte when there is no extended length; [pos >= 1] after a successful
    [parse_type_length]). *)
Definition parse_optional_value : st (option SmlValue) :=
  '(type_field, length) <-? parse_type_length ;;
  if type_field =? 0 then sret None else
  fun p0 =>
  let p := at_pos p0 (pos p0 - 1) in
  (if type_field =? 5 then (b <-? parse_bool ;; sret (Some (Bool b)))
   else if type_field =? 6 then
     match length with
     | 1%nat => v <-? parse_signed8 ;; sret (Some (Int8 v))
     | 2%nat => v <-? parse_signed16 ;; sret (Some (Int16 v))
     | 4%nat => v <-? parse_signed32 ;; sret (Some (Int32 v))
     | 8%nat => v <-? parse_signed64 ;; sret (Some (Int64 v))
     | _ => sfail (ParseError "Invalid signed integer length")
     end
   else if type_field =? 0 then
     match length with
     | 1%nat => v <-? parse_unsigned8 ;; sret (Some (UInt8 v))
     | 2%nat => v <-? parse_unsigned16 ;; sret (Some (UInt16 v))
     | 4%nat => v <-? parse_unsigned32 ;; sret (Some (UInt32 v))
     | 8%nat => v <-? parse_unsigned64 ;; sret (Some (UInt64 v))
     | _ => sfail (ParseError "Invalid unsigned integer length")
     end
   else fun p1 =>
     let p1 := at_pos p1 (pos p1 + 1) in
     if (List.length (sdata p1) <? pos p1 + length)%nat
     then Done (Err (ParseError "Value extends beyond data"), p1) else
     Done (Ok (Some (OctetString (firstn length (skipn (pos p1) (sdata p1))))),
           at_pos p1 (pos p1 + length))) p.

Definition parse_optional_tree : st (option SmlTree) :=
  '(type_field, _) <-? parse_type_length ;;
  if type_field =? 0 then sret None else
  parameter_name <-? parse_optional_octet_string ;;
  parameter_value <-? parse_optional_value ;;
  sret (Some (mkSmlTree parameter_name parameter_value None)).

Definition skip_list : st Datatypes.unit :=
  '(_, length) <-? parse_type_length ;;
  fun p =>
  if (List.length (sdata p) <? pos p + length)%nat
  then Done (Err (ParseError "Skip extends beyond data"), p)
  else Done (Ok tt, at_pos p (pos p + length)).

Definition parse_list_entry : st SmlListEntry :=
  obis_code <-? parse_optional_octet_string ;;
  status <-? parse_optional_unsigned64 ;;
  val_time <-? parse_optional_unsigned32 ;;
  unit <-? parse_optional_unsigned8 ;;
  scaler <-? parse_optional_signed8 ;;
  value <-? parse_optional_value ;;
  value_signature <-? parse_optional_octet_string ;;
  sret {| obis_code := obis_code; status := status; val_time := val_time; unit := unit;
          scaler := scaler; value := value; value_signature := value_signature |}.

Fixpoint list_entries (n : nat) : st (list SmlListEntry) :=
  match n with
  | O => sret []
  | S k => e <-? parse_list_entry ;; es <-? list_entries k ;; sret (e :: es)
  end.

Definition parse_val_list : st (list SmlListEntry) :=
  list_length <-? parse_list_length ;; list_entries list_length.

Definition parse_get_list_response : st SmlGetListResponse :=
  client_id <-? parse_optional_octet_string ;;
  server_id <-? parse_optional_octet_string ;;
  list_name <-? parse_optional_octet_string ;;
  act_sensor_time <-? parse_optional_unsigned32 ;;
  val_list <-? parse_val_list ;;
  list_signature <-? parse_optional_octet_string ;;
  act_gateway_time <-? parse_optional_unsigned32 ;;
  sret {| gl_client_id := client_id; gl_server_id := server_id; gl_list_name := list_name;
          gl_act_sensor_time := act_sensor_time; gl_val_list := val_list;
          gl_list_signature := list_signature; gl_act_gateway_time := act_gateway_time |}.

Definition parse_get_proc_parameter_response : st SmlGetProcParameterResponse :=
  server_id <-? parse_optional_octet_string ;;
  path <-? parse_octet_string ;;
  parameter_tree <-? parse_optional_tree ;;
  sret {| gp_server_id := server_id;
          gp_parameter_tree_path := match path with Some v => v | None => [] end;
          gp_parameter_tree := parameter_tree |}.

Definition parse_attention_message : st SmlAttentionMessage :=
  server_id <-? parse_optional_octet_string ;;
  attention_no <-? parse_octet_string ;;
  attention_msg <-? parse_optional_octet_string ;;
  attention_details <-? parse_optional_tree ;;
  sret {| at_server_id := server_id;
          at_attention_no := match attention_no with Some v => v | None => [] end;
          at_attention_msg := attention_msg; at_attention_details := attention_details |}.

Definition SML_GET_LIST_RESPONSE : Z := 0x701.
Definition SML_GET_PROC_PARAMETER_RESPONSE : Z := 0x601.
Definition SML_ATTENTION : Z := 0x901.

Definition parse_message_body : st SmlMessageBody :=
  msg_type <-? parse_unsigned16 ;;
  let body := {| msg_type := msg_type; get_list_response := None;
                 get_proc_parameter_response := None; attention_response := None |} in
  if msg_type =? SML_GET_LIST_RESPONSE then
    r <-? parse_get_list_response ;;
    sret {| msg_type := msg_type; get_list_response := Some r;
            get_proc_parameter_response := None; attention_response := None |}
  else if msg_type =? SML_GET_PROC_PARAMETER_RESPONSE then
    r <-? parse_get_proc_parameter_response ;;
    sret {| msg_type := msg_type; get_list_response := None;
            get_proc_parameter_response := Some r; attention_response := None |}
  else if msg_type =? SML_ATTENTION then
    r <-? parse_attention_message ;;
    sret {| msg_type := msg_type; get_list_response := None;
            get_proc_parameter_response := None; attention_response := Some r |}
  else (_ <-? skip_list ;; sret body).

(** The method [SmlParser::parse_sml_message]. *)
Definition parse_message : st SmlMessage :=
  transaction_id <-? parse_octet_string ;;
  group_no <-? parse_unsigned8 ;;
  abort_on_error <-? parse_unsigned8 ;;
  message_body <-? parse_message_body ;;
  crc <-? parse_optional_unsigned16 ;;
  end_of_message <-? parse_unsigned8 ;;
  sret {| transaction_id := match transaction_id with Some v => v | None => [] end;
          group_no := group_no; abort_on_error := abort_on_error;
          message_body := message_body; crc := crc; end_of_message := end_of_message;
          client_id := None |}.

(** The [while] loop of [parse_sml_file]; a message that parses consumes
    at least its first type-length byte, so [length data] rounds suffice. *)
Fixpoint file_loop (fuel : nat) (acc : list SmlMessage) (p : SmlParser)
  : outcome (list SmlMessage * SmlParser) :=
  match fuel with
  | O => Panic
  | S f =>
      if (pos p <? List.length (sdata p))%nat then
        b <-- byte_at p (pos p) ;;
        if b =? 0 then Done (acc, p) else
        '(r, p') <-- parse_message p ;;
        match r with
        | Ok m => file_loop f (acc ++ [m]) p'
        | Err _ => Done (acc, p')
        end
      else Done (acc, p)
  end.

Definition parse_sml_file : st SmlFile := fun p0 =>
  '(ms, p) <-- file_loop (S (List.length (sdata p0))) [] p0 ;;
  match ms with
  | [] => Done (Err (ParseError "No valid SML messages found"), p)
  | _ => Done (Ok {| messages := ms |}, p)
  end.

End SmlGrammar.

(** ** SML frames: [parse_sml_message], [find_sml_start], [find_sml_end] *)
Module SmlFrame.
Import Sml SmlGrammar.

Definition SML_START_SEQUENCE : list Z := [0x1B; 0x1B; 0x1B; 0x1B].
Definition SML_END_SEQUENCE : list Z := [0x1B; 0x1B; 0x1B; 0x1A].

Fixpoint list_eqb (l1 l2 : list Z) : bool :=
  match l1, l2 with
  | [], [] => true
  | a :: r1, b :: r2 => (a =? b) && list_eqb r1 r2
  | _, _ => false
  end.

(** [&data[i..i + 4]] (in range wherever the loops use it). *)
Definition window (data : list Z) (i : nat) : list Z := firstn 4 (skipn i data).

(** The first [i] of [from .. from + n] with [p i]. *)
Fixpoint first_from (p : nat -> bool) (from n : nat) : option nat :=
  match n with
  | O => None
  | S k => if p from then Some from else first_from p (S from) k
  end.

(** [for i in 0..data.len().saturating_sub(4)] *)
Definition find_sml_start (data : list Z) : result SmlError nat :=
  match first_from (fun i => list_eqb (window data i) SML_START_SEQUENCE) 0
                   (List.length data - 4) with
  | Some i => Ok i
  | None => Err InvalidMessage
  end.

(** [for i in start_pos + 4..data.len().saturating_sub(3)] with the guard
    [i + 4 <= data.len()]. *)
Definition find_sml_end (data : list Z) (start_pos : nat) : result SmlError nat :=
  match first_from (fun i => (i + 4 <=? List.length data)%nat
                             && list_eqb (window data i) SML_END_SEQUENCE)
                   (start_pos + 4) (List.length data - 3 - (start_pos + 4)) with
  | Some i => Ok i
  | None => Err InvalidMessage
  end.

(** [&data[start_pos + 8..end_pos]] panics when [end_pos < start_pos + 8]. *)
Definition parse_sml_message (data : list Z) : outcome (result SmlError SmlFile) :=
  match find_sml_start data with
  | Err e => Done (Err e)
  | Ok start_pos =>
      match find_sml_end data start_pos with
      | Err e => Done (Err e)
      | Ok end_pos =>
          if (end_pos <? start_pos + 8)%nat then Panic else
          let sml_content := firstn (end_pos - (start_pos + 8)) (skipn (start_pos + 8) data) in
          '(r, _) <-- parse_sml_file (new sml_content) ;; Done r
      end
  end.

End SmlFrame.

(** ** The readings the specification gives for DIF data fields *)
Module DifSpec.

(** Little-endian unsigned integer of a byte sequence. *)
Fixpoint le_value (bs : list Z) : Z :=
  match bs with [] => 0 | b :: r => b + 256 * le_value r end.

(** BCD: each nibble a decimal digit, high nibble first in a byte, the last
    byte holding the most significant pair of digits. *)
Fixpoint bcd_value (bs : list Z) : Z :=
  match bs with
  | [] => 0
  | b :: r => (Z.shiftr b 4 * 10 + Z.land b 15) + 100 * bcd_value r
  end.

(** Data size of the integer DIFs. *)
Definition int_dif_size (dif : Z) : nat :=
  if dif =? 1 then 1 else if dif =? 2 then 2 else if dif =? 3 then 3
  else if dif =? 4 then 4 else if dif =? 6 then 6 else 8.

End DifSpec.

(** ** Telegram framing with CRC blocks, as [verifiy_crc] reads it *)
Module OmsSpec.
Import Payload Oms.

(** CRC of a block, and the block followed by its CRC high byte first. *)
Definition crc_of (bs : list Z) : Z := crc_get (fold_left crc_update bs 0).
Definition with_crc (bs : list Z) : list Z :=
  (bs ++ [Z.shiftr (crc_of bs) 8; Z.land (crc_of bs) 0xFF])%list.
Definition tail_crc (tail : list Z) : list Z :=
  match tail with [] => [] | _ => with_crc tail end.
Definition frame (first : list Z) (mids : list (list Z)) (tail : list Z) : list Z :=
  (with_crc first ++ List.concat (map with_crc mids) ++ tail_crc tail)%list.
(** The check that [hex2] renders a byte as two hex digits. *)
Definition hex2_ok (n : nat) : bool :=
  match hex2 (Z.of_nat n) with
  | String a (String b EmptyString) =>
      match hex_val a, hex_val b with
      | Some x, Some y => 16 * x + y =? Z.of_nat n
      | _, _ => false
      end
  | _ => false
  end.

(** The ASCII characters [0-9] and [a-f]. *)
Definition lower_hex (c : ascii) : bool :=
  let n := nat_of_ascii c in ((48 <=? n) && (n <=? 57))%nat || ((97 <=? n) && (n <=? 102))%nat.

(** The check that [hex2] renders a byte as two lowercase hex digits. *)
Definition hex2_lower_ok (n : nat) : bool :=
  match hex2 (Z.of_nat n) with
  | String a (String b EmptyString) => lower_hex a && lower_hex b
  | _ => false
  end.

(** What [oms_security] and the payload decoding make of a mode-5 telegram
    whose block decrypts to [d]: the 0x2F 0x2F check, then the record with
    the payload hex, the decoded values and [security_mode = 5]. *)
Definition mode5_record (h : OmsHeader) (d : list Z) : outcome (result OmsParseError MeteringData) :=
  match d with
  | d0 :: d1 :: _ =>
      if (d0 =? 0x2F) && (d1 =? 0x2F) then
        parsed <-- parse_payload (remove_oms_filler d) ;;
        Done (Ok {| meter_name := name (h_config h); protocol := OMS;
                    metered_values :=
                      map_insert "proto" (VObj (map_insert "security_mode" (VInt 5) (h_proto h)))
                        (fold_left (fun m kv => map_insert (fst kv) (snd kv) m) parsed
                           (map_insert "payload" (VStr (hex_upper_bytes (remove_oms_filler d))) [])) |})
      else Done (Err DecryptionFailed)
  | _ => Done (Err DecryptionFailed)
  end.

End OmsSpec.

(** Data bytes that [get_dif_function] maps to [(1, dif_no_data, false)]:
    no data, selection for readout, idle filler. *)
Module PayloadSpec.
Import Vif Payload.

Definition is_filler (b : Z) : Prop := b = 0 \/ b = 8 \/ b = 0x2F.

(** The value [parse_record] stores for integer data [n] under a primary VIF
    [v] without handler, selected arm [a]: scaled unless the scaler is 1. *)
Definition int_value (v : Z) (a : arm) (n : Z) : Value :=
  let s := eval_scaler v (a_scaler a) in
  if scaler_is_one s then VInt n else VScaled (VInt n) s.

End PayloadSpec.

(** The fields [0..255] of an OBIS code as [{}] prints them: free of the
    separators [':'], ['-'], ['.'], ['*'] and accepted by [parse::<u8>]. *)
Module ObisSpec.
Import ObisUtils.

Definition u8_field_ok (k : nat) : bool :=
  let s := dec (Z.of_nat k) in
  negb (Str.contains_char ":" s) && negb (Str.contains_char "-" s)
  && negb (Str.contains_char "." s) && negb (Str.contains_char "*" s)
  && match Str.parse_u8 s with Some _ => true | None => false end.

End ObisSpec.

(** * Properties *)

(** ** Bit-level helpers *)
Module Bits.

Lemma lor_shiftl_low (a b k : Z) :
  0 <= k -> 0 <= b < 2 ^ k -> Z.lor (Z.shiftl a k) b = a * 2 ^ k + b.
Proof.
  intros Hk Hb.
  rewrite Z.shiftl_mul_pow2 by lia.
  assert (Hand : Z.land (a * 2 ^ k) b = 0).
  { apply Z.bits_inj'; intros i Hi.
    rewrite Z.land_spec, Z.testbit_0_l.
    destruct (Z.lt_ge_cases i k) as [Hlt | Hge].
    - rewrite Z.mul_pow2_bits_low by lia. reflexivity.
    - destruct (Z.eq_dec b 0) as [-> | Hb0].
      + rewrite Z.testbit_0_l. apply andb_false_r.
      + assert (Hlog : Z.log2 b < k) by (apply Z.log2_lt_pow2; lia).
        rewrite (Z.bits_above_log2 b i) by lia.
        apply andb_false_r. }
  rewrite <- Z.lxor_lor by exact Hand.
  rewrite <- Z.add_nocarry_lxor by exact Hand.
  reflexivity.
Qed.

End Bits.

(** ** Modbus *)
Module ModbusFacts.
Import Modbus Inputs.

(** The hub tick is the least of 60 and the configured read intervals. *)
Lemma hub_interval_min (ris : list Z) :
  Cadence.hub_interval ris = fold_right Z.min 60 ris.
Proof.
  unfold Cadence.hub_interval.
  assert (Hgen : forall l acc, acc <= 60 ->
            fold_left (fun a ri => Z.min a ri) l acc = Z.min acc (fold_right Z.min 60 l)).
  { induction l as [| x l IH]; intros acc Hacc; simpl.
    - lia.
    - rewrite IH by lia. lia. }
  rewrite Hgen by lia. induction ris as [| x l IH]; simpl; lia.
Qed.

(** The devices' [waits_till_read] are the quotients rounded down. *)
Lemma all_waits_floor (hub : Z) (ris : list Z) :
  hub <> 0 ->
  Cadence.all_waits hub ris
  = Done (map (fun ri => (ri / hub, negb (ri / hub * hub =? ri))) ris).
Proof.
  intros Hhub. induction ris as [| ri rest IH]; simpl.
  - reflexivity.
  - unfold Cadence.device_waits.
    destruct (Z.eqb_spec hub 0) as [E | _]; [contradiction |].
    simpl. rewrite IH. reflexivity.
Qed.

(** C5 (code_bug).  Read intervals 10 s and 25 s: the tick is 10 s and the
    second device gets [waits_till_read = 25 / 10 = 2] (read every 20 s,
    with the warning), not [ceil(25 / 10) = 3]. *)
Theorem C5_cadence_rounds_down :
  Cadence.start_thread_cadence [10; 25] = Done (10, [(1, false); (2, true)])
  /\ (25 + 10 - 1) / 10 = 3
  /\ Cadence.tick_loop 2 0 1 6 = [2%nat; 4%nat; 6%nat].
Proof. vm_compute. repeat split; reflexivity. Qed.

(** C9.  An Int32 register composes its two words most-significant first,
    [(word[0] << 16) | word[1] = word[0] * 65536 + word[1]], which fits a
    u32; reading {0x0001, 0x2345} gives 0x00012345, and the holding
    register of S4 returning {0x0000, 0x02BC} with scaler 0.1 emits 70. *)
Theorem C9_int32_msw_first (w0 w1 : Z) :
  0 <= w0 < 2 ^ 16 -> 0 <= w1 < 2 ^ 16 ->
  register_raw Int32 [w0; w1] = Done (w0 * 2 ^ 16 + w1)
  /\ 0 <= w0 * 2 ^ 16 + w1 < 2 ^ 32
  /\ register_raw Int32 [0x0001; 0x2345] = Done 0x00012345
  /\ register_value s4_register [0x0000; 0x02BC] = Done (VFloat (Dy 70 0)).
Proof.
  intros H0 H1. split; [| split; [| split]].
  - unfold register_raw, idx, obind; cbn -[Z.lor Z.shiftl Z.pow Z.mul Z.add].
    change (PosDef.Pos.to_nat 1) with 1%nat; cbn -[Z.lor Z.shiftl Z.pow Z.mul Z.add].
    rewrite Bits.lor_shiftl_low by lia. reflexivity.
  - lia.
  - vm_compute. reflexivity.
  - vm_compute. reflexivity.
Qed.

Lemma C9_int32_msw_first_witness :
  (0 <= 1 < 2 ^ 16 /\ 0 <= 0x2345 < 2 ^ 16)
  /\ register_raw Int32 [1; 0x2345] = Done (1 * 2 ^ 16 + 0x2345).
Proof.
  split; [lia |].
  apply (C9_int32_msw_first 1 0x2345); lia.
Defined.

(** First exact match, then the first wildcard, then the numeric value. *)
Lemma apply_mappings_precedence (v : Value) (key : string) (ms : list Mapping) :
  apply_mappings v key ms =
  match find (fun m => String.eqb (data m) key) ms with
  | Some m => mapping m
  | None => match find (fun m => String.eqb (data m) "_") ms with
            | Some m => mapping m | None => v end
  end.
Proof. reflexivity. Qed.

(** C2 (code_bug).  With the mappings of S5, the raw value 1 emits
    "unknown", not "on": the key compared with [mapping.data] is
    [format!("{:?}", 1.0f32)] = "1.0", which never equals "1"; the raw
    value 5 emits "unknown" as stated. *)
Theorem C2_raw1_emits_wildcard :
  register_value s5_register [1] = Done (VStr "unknown")
  /\ register_value s5_register [5] = Done (VStr "unknown")
  /\ debug_f32_integral (scaled_value 1 f32_1_0) = "1.0".
Proof. vm_compute. repeat split; reflexivity. Qed.

End ModbusFacts.

(** ** OMS DIF/VIF records *)
Module DifVifFacts.
Import DifVif DifSpec Payload.

Definition is_byte (b : Z) : Prop := 0 <= b < 256.

Lemma idx_app (pre l : list Z) (k : nat) :
  idx (pre ++ l) (Z.of_nat (List.length pre) + Z.of_nat k)
  = match nth_error l k with Some b => Done b | None => Panic end.
Proof.
  unfold idx.
  replace (Z.of_nat (List.length pre) + Z.of_nat k <? 0) with false
    by (symmetry; apply Z.ltb_ge; lia).
  rewrite <- Nat2Z.inj_add, Nat2Z.id, nth_error_app2 by lia.
  replace (List.length pre + k - List.length pre)%nat with k by lia.
  reflexivity.
Qed.

Lemma read_le_spec (bs pre : list Z) :
  Forall is_byte bs ->
  read_le (pre ++ bs) (Z.of_nat (List.length pre)) (List.length bs) = Done (le_value bs).
Proof.
  revert pre. induction bs as [| b bs IH]; intros pre Hb; [reflexivity |].
  inversion Hb as [| ? ? Hb0 Hbs]; subst.
  cbn [List.length read_le].
  pose proof (idx_app pre (b :: bs) 0) as E. rewrite Z.add_0_r in E.
  rewrite E. cbn [nth_error obind].
  replace (pre ++ b :: bs)%list with ((pre ++ [b]) ++ bs)%list by (rewrite <- app_assoc; reflexivity).
  replace (Z.of_nat (List.length pre) + 1) with (Z.of_nat (List.length (pre ++ [b])))
    by (rewrite length_app; simpl; lia).
  rewrite IH by exact Hbs. cbn [obind le_value].
  rewrite Bits.lor_shiftl_low by (unfold is_byte in Hb0; lia).
  f_equal. lia.
Qed.

(** The DIFs of C6.  DIFs 0x01..0x04, 0x06 and 0x07 read the little-endian
    unsigned integer of their 1, 2, 3, 4, 6 or 8 data bytes; DIF 0x0C reads
    four bytes as BCD (last byte most significant); DIF 0xF0 reads no
    digits: it skips four bytes and yields the text "1111 1111". *)
Theorem C6_dif_decoding (pre bs : list Z) (dif : Z) :
  Forall is_byte bs ->
  (In dif [1; 2; 3; 4; 6; 7] -> List.length bs = int_dif_size dif ->
     exists h, get_dif_function [dif] 0 = Done (1, h, true)
       /\ run_dif h (pre ++ bs) (Z.of_nat (List.length pre))
          = Done (Z.of_nat (int_dif_size dif), VInt (le_value bs)))
  /\ (List.length bs = 4%nat ->
       get_dif_function [0x0C] 0 = Done (1, dif_read_12digest_bcd, true)
       /\ run_dif dif_read_12digest_bcd (pre ++ bs) (Z.of_nat (List.length pre))
          = Done (4, VInt (bcd_value bs)))
  /\ (get_dif_function [0xF0] 0 = Done (1, dif_read_8digest_bcd, true)
      /\ run_dif dif_read_8digest_bcd (pre ++ bs) (Z.of_nat (List.length pre))
         = Done (4, VStr "1111 1111")).
Proof.
  intros Hb. split; [| split].
  - intros Hin Hlen.
    destruct Hin as [<- | [<- | [<- | [<- | [<- | [<- | []]]]]]];
      eexists; (split; [reflexivity |]);
      pose proof (read_le_spec bs pre Hb) as R; cbn in Hlen; rewrite Hlen in R;
      cbn [run_dif]; rewrite R; reflexivity.
  - intros Hlen. split; [reflexivity |].
    destruct bs as [| b0 [| b1 [| b2 [| b3 [| ? ?]]]]]; try discriminate.
    unfold run_dif, bcd_to_integer_sized. cbn [bcd_loop].
    rewrite !idx_app. cbn [nth_error obind].
    cbn [bcd_value].
    inversion Hb as [| ? ? Hy0 Hr0]; inversion Hr0 as [| ? ? Hy1 Hr1];
      inversion Hr1 as [| ? ? Hy2 Hr2]; inversion Hr2 as [| ? ? Hy3 _].
    unfold is_byte in *.
    assert (Hd : forall b, is_byte b -> Z.land (Z.shiftr b 4) 15 = Z.shiftr b 4).
    { intros b Hb'. unfold is_byte in Hb'.
      change 15 with (Z.ones 4). rewrite Z.land_ones by lia. apply Z.mod_small.
      rewrite Z.shiftr_div_pow2 by lia. split.
      - apply Z.div_pos; lia.
      - apply Z.div_lt_upper_bound; lia. }
    rewrite !Hd by (unfold is_byte; lia).
    f_equal. f_equal. f_equal. ring.
  - split; reflexivity.
Qed.

Lemma C6_dif_decoding_witness :
  Forall is_byte [0x12; 0x34]
  /\ run_dif dif_read_16bit_int ([] ++ [0x12; 0x34]) 0 = Done (2, VInt (le_value [0x12; 0x34])).
Proof.
  split; [repeat constructor; unfold is_byte; lia |].
  destruct (C6_dif_decoding [] [0x12; 0x34] 2) as [H _];
    [repeat constructor; unfold is_byte; lia |].
  destruct (H ltac:(simpl; tauto) eq_refl) as [h [Hg Hr]].
  cbv in Hg. injection Hg as <-. exact Hr.
Defined.

(** C6 (code_bug).  At DIF 0xF0 ("8 digest BCD") [dif_read_8digest_bcd]
    reads none of its four data bytes: whatever they hold, the record decodes
    to the text "1111 1111" and not to their BCD value. *)
Theorem C6_f0_not_bcd (bs : list Z) :
  List.length bs = 4%nat ->
  parse_payload ([0xF0; 0x03] ++ bs)%list
  = Done [("energy", VStr "1111 1111"); ("energy_unit", VStr "Wh")].
Proof.
  intros Hl.
  destruct bs as [| b0 [| b1 [| b2 [| b3 [| ? ?]]]]]; try discriminate.
  vm_compute. reflexivity.
Qed.

Lemma C6_f0_not_bcd_witness :
  bcd_value [0x78; 0x56; 0x34; 0x12] = 12345678
  /\ parse_payload ([0xF0; 0x03] ++ [0x78; 0x56; 0x34; 0x12])%list
     = Done [("energy", VStr "1111 1111"); ("energy_unit", VStr "Wh")].
Proof. split; [reflexivity | apply (C6_f0_not_bcd [0x78; 0x56; 0x34; 0x12]); reflexivity]. Defined.

(** C4 (code_bug).  DIF 0x02, VIF 0x22 (on-time in hours), data 0x02 0x00:
    VIF 0x22 falls outside the on-time arm [0b00100000..=0b00100000] and the
    record is emitted as [unknown_at_1_22 = 2] with unit "unknown"; the
    operating-time VIF 0x26 (hours) of the next arm is converted: 7200 s. *)
Theorem C4_on_time_hours_unknown :
  parse_payload [0x02; 0x22; 0x02; 0x00]
  = Done [("unknown_at_1_22", VInt 2); ("unknown_at_1_22_unit", VStr "unknown")]
  /\ parse_payload [0x02; 0x26; 0x02; 0x00]
  = Done [("operation_time", VInt 7200); ("operation_time_unit", VStr "s")].
Proof. vm_compute. split; reflexivity. Qed.

End DifVifFacts.

(** ** OMS telegrams *)
Module OmsFacts.
Import Payload Oms Inputs OmsSpec.

Section WithAes.
Variable aes : list Z -> list Z -> list Z -> option (list Z).

Lemma parse_after_transport conf tel with_crc h :
  oms_transport conf tel with_crc = Done (Ok h) ->
  parse_oms_telegram aes conf tel with_crc = oms_security aes h.
Proof. intros H. unfold parse_oms_telegram. rewrite H. reflexivity. Qed.

End WithAes.

(** C1 (corrected).  Once the transport layer has been read, a security mode
    other than 5 and 7 fails with [SecurityModeNotSupported]; mode 7 is
    accepted without decryption and yields a record with an empty meter
    name, an empty payload and no decoded values; mode 5 never fails with
    [SecurityModeNotSupported]: its block is decrypted and, when the result
    starts with 0x2F 0x2F, decoded into the record [mode5_record]. *)
Theorem C1_security_modes aes conf tel with_crc h :
  oms_transport conf tel with_crc = Done (Ok h) ->
  (security_mode h <> 5 -> security_mode h <> 7 ->
     parse_oms_telegram aes conf tel with_crc = Done (Err SecurityModeNotSupported))
  /\ (security_mode h = 7 ->
     parse_oms_telegram aes conf tel with_crc
     = Done (Ok {| meter_name := ""; protocol := OMS;
                   metered_values := [("payload", VStr ""); ("proto", VObj (h_proto h))] |}))
  /\ (security_mode h = 5 ->
     parse_oms_telegram aes conf tel with_crc <> Done (Err SecurityModeNotSupported)
     /\ forall d, decrypt_mode5 aes (h_telegram h) (h_access_no h) 15 (hex_decode (key (h_config h)))
                  = Done d ->
        parse_oms_telegram aes conf tel with_crc = mode5_record h d).
Proof.
  intros H. rewrite (parse_after_transport aes conf tel with_crc h H).
  unfold oms_security. split; [| split].
  - intros H5 H7. apply Z.eqb_neq in H5, H7. rewrite H5, H7. reflexivity.
  - intros H7. rewrite H7. reflexivity.
  - intros H5. rewrite H5. cbn [Z.eqb Pos.eqb].
    assert (Hd : forall d, decrypt_mode5 aes (h_telegram h) (h_access_no h) 15 (hex_decode (key (h_config h)))
                  = Done d ->
        (dec <-- (d <-- decrypt_mode5 aes (h_telegram h) (h_access_no h) 15 (hex_decode (key (h_config h))) ;;
             if (List.length d <? 2)%nat then Done (Err DecryptionFailed) else
             d0 <-- idx d 0 ;; d1 <-- idx d 1 ;;
             if negb (d0 =? 0x2F) || negb (d1 =? 0x2F) then Done (Err DecryptionFailed)
             else Done (Ok (remove_oms_filler d, name (h_config h),
                            map_insert "security_mode" (VInt 5) (h_proto h)))) ;;
        match dec with
        | Err e => Done (Err e)
        | Ok (dec_data, mname, proto) =>
            let mv := map_insert "payload" (VStr (hex_upper_bytes dec_data)) [] in
            parsed <-- parse_payload dec_data ;;
            let mv := fold_left (fun m kv => map_insert (fst kv) (snd kv) m) parsed mv in
            let mv := map_insert "proto" (VObj proto) mv in
            Done (Ok {| meter_name := mname; protocol := OMS; metered_values := mv |})
        end) = mode5_record h d).
    { intros d E. rewrite E. cbn [obind].
      destruct d as [| d0 [| d1 r]]; [reflexivity | reflexivity |].
      cbn [List.length Nat.ltb Nat.leb idx]. unfold idx. cbn -[parse_payload remove_oms_filler hex_upper_bytes].
      change (PosDef.Pos.to_nat 1) with 1%nat. cbn -[parse_payload remove_oms_filler hex_upper_bytes].
      destruct (d0 =? 0x2F), (d1 =? 0x2F); cbn -[parse_payload remove_oms_filler hex_upper_bytes]; try reflexivity.
      all: destruct (parse_payload (remove_oms_filler (d0 :: d1 :: r))); reflexivity. }
    split.
    + destruct (decrypt_mode5 aes (h_telegram h) (h_access_no h) 15 (hex_decode (key (h_config h))))
        as [d |] eqn:E; [| cbn; discriminate].
      cbn [obind].
      destruct d as [| d0 [| d1 r]]; [cbn; discriminate | cbn; discriminate |].
      unfold idx. cbn -[parse_payload remove_oms_filler hex_upper_bytes].
      change (PosDef.Pos.to_nat 1) with 1%nat. cbn -[parse_payload remove_oms_filler hex_upper_bytes].
      destruct (d0 =? 0x2F), (d1 =? 0x2F); cbn -[parse_payload remove_oms_filler hex_upper_bytes]; try discriminate.
      all: destruct (parse_payload _); cbn -[parse_payload remove_oms_filler hex_upper_bytes]; discriminate.
    + exact Hd.
Qed.

Lemma C1_security_modes_witness :
  (exists h, oms_transport oms_conf (oms_tel 0 0) false = Done (Ok h)
     /\ security_mode h = 0
     /\ parse_oms_telegram no_aes oms_conf (oms_tel 0 0) false
        = Done (Err SecurityModeNotSupported))
  /\ (exists h, oms_transport oms_conf (oms_tel 0 5) false = Done (Ok h)
     /\ security_mode h = 5
     /\ parse_oms_telegram (fun _ _ ct => Some ct) oms_conf (oms_tel 0 5) false
        <> Done (Err SecurityModeNotSupported)).
Proof.
  split.
  - eexists. split; [reflexivity |]. split; [reflexivity |].
    apply (C1_security_modes no_aes oms_conf (oms_tel 0 0) false _ eq_refl);
      vm_compute; discriminate.
  - eexists. split; [reflexivity |]. split; [reflexivity |].
    apply (C1_security_modes (fun _ _ ct => Some ct) oms_conf (oms_tel 0 5) false _ eq_refl).
    reflexivity.
Defined.

(** C1: a mode-7 telegram for a configured meter is accepted. *)
Lemma C1_mode7_accepted :
  exists h, oms_transport oms_conf (oms_tel 0 7) false = Done (Ok h)
    /\ security_mode h = 7
    /\ exists md, parse_oms_telegram no_aes oms_conf (oms_tel 0 7) false = Done (Ok md).
Proof.
  eexists. split; [reflexivity |]. split; [reflexivity |].
  eexists. vm_compute. reflexivity.
Qed.

(** C10 (confirmed).  With [with_crc = true], every telegram shorter than two
    bytes makes [verifiy_crc] panic ([telegram.len() - start - 2] underflows),
    so [parse_oms_telegram] panics instead of returning an error. *)
Theorem C10_short_crc_panics aes conf tel :
  (List.length tel < 2)%nat ->
  verifiy_crc tel = Panic /\ parse_oms_telegram aes conf tel true = Panic.
Proof.
  intros Hl.
  destruct tel as [| a [| b r]]; [| | cbn in Hl; lia]; split; reflexivity.
Qed.

Lemma C10_short_crc_panics_witness :
  verifiy_crc [] = Panic /\ parse_oms_telegram no_aes oms_conf [] true = Panic.
Proof. apply (C10_short_crc_panics no_aes oms_conf []). cbn. lia. Defined.

End OmsFacts.

(** ** SML type-length fields *)
Module SmlFacts.
Import Sml.

(** C3 (code_bug).  A type-length byte with type bits 0 (and no extended
    length) makes [parse_octet_string] return [None] after consuming only
    that byte, whatever the length nibble says: [0x05 0x01 0x02 0x03 0x04]
    yields [None] and leaves the four content bytes unread. *)
Theorem C3_type0_octet_string_is_none (p : SmlParser) (b : Z) :
  nth_error (sdata p) (pos p) = Some b ->
  Z.land (Z.shiftr b 4) 7 = 0 -> Z.land b 15 <> 15 ->
  parse_octet_string p = Done (Ok None, {| sdata := sdata p; pos := S (pos p) |}).
Proof.
  intros Hb Ht Hl.
  assert (Hlt : (pos p < List.length (sdata p))%nat).
  { apply nth_error_Some. rewrite Hb. discriminate. }
  unfold parse_octet_string, parse_type_length, byte_at, idx.
  replace ((List.length (sdata p) <=? pos p)%nat) with false
    by (symmetry; apply Nat.leb_gt; exact Hlt).
  replace (Z.of_nat (pos p) <? 0) with false by (symmetry; apply Z.ltb_ge; lia).
  rewrite Nat2Z.id, Hb. cbn [obind].
  apply Z.eqb_neq in Hl. rewrite Hl, Ht. reflexivity.
Qed.

Lemma C3_type0_octet_string_is_none_witness :
  parse_octet_string (new [0x05; 0x01; 0x02; 0x03; 0x04])
  = Done (Ok None, {| sdata := [0x05; 0x01; 0x02; 0x03; 0x04]; pos := 1 |}).
Proof.
  apply (C3_type0_octet_string_is_none (new [0x05; 0x01; 0x02; 0x03; 0x04]) 0x05);
    [reflexivity | reflexivity | discriminate].
Defined.

End SmlFacts.

(** ** OBIS codes *)
Module ObisFacts.
Import ObisUtils.

(** C7 (code_bug).  The F field after ['*'] is cut off before the fields
    are checked: ["1-0:1.8.1*abc"] is accepted although ["abc"] is no u8,
    and ["1-0:1.8.1*-"] is accepted although it has two ['-']; a code
    whose E field is no u8 is rejected. *)
Theorem C7_f_field_unchecked :
  validate_obis_code "1-0:1.8.1*abc" = true
  /\ Str.parse_u8 "abc" = None
  /\ validate_obis_code "1-0:1.8.1*-" = true
  /\ validate_obis_code "1-0:1.8.x*255" = false
  /\ validate_obis_code "1-0:1.8.1*255" = true.
Proof. vm_compute. repeat split. Qed.

End ObisFacts.

(** ** IEC 62056-21 telegrams *)
Module IecFacts.
Import Iec Inputs.

Lemma parse_identification_line_not_checksum line :
  parse_identification_line line <> Err ChecksumFailed.
Proof.
  unfold parse_identification_line.
  destruct (negb (Str.starts_with "/" line)); [discriminate |].
  destruct (String.length _ <? 3)%nat; discriminate.
Qed.

(** C8 (code_bug).  No telegram is ever rejected with [ChecksumFailed]: the
    parser computes no BCC.  The telegram [iec_tel_bad_bcc] carries the byte
    ['Z'] (90) after ['!'] while its BCC is 100, and it is accepted. *)
Theorem C8_bcc_never_checked :
  (forall t, parse_iec62056_telegram t <> Err ChecksumFailed)
  /\ bcc iec_tel_bad_bcc = 100
  /\ Z.of_nat (nat_of_ascii "Z") = 90
  /\ exists md, parse_iec62056_telegram iec_tel_bad_bcc = Ok md.
Proof.
  split; [| split; [vm_compute; reflexivity | split; [reflexivity |]]].
  - intros t. unfold parse_iec62056_telegram, parse_lines.
    destruct (Str.lines t) as [| l rest]; [discriminate |].
    destruct (negb (Str.starts_with "/" l)); [discriminate |].
    pose proof (parse_identification_line_not_checksum l) as H.
    destruct (parse_identification_line l) as [i | d]; try discriminate.
    intros E. injection E as ->. apply H. reflexivity.
  - eexists. vm_compute. reflexivity.
Qed.

End IecFacts.

Module SmlGrammarFacts.
Import Sml SmlGrammar.

Lemma byte_at_nth p i b : nth_error (sdata p) i = Some b -> byte_at p i = Done b.
Proof.
  intros H. unfold byte_at, idx.
  replace (Z.of_nat i <? 0) with false by (symmetry; apply Z.ltb_ge; lia).
  rewrite Nat2Z.id, H. reflexivity.
Qed.

Lemma nth_lt {A} (l : list A) i b : nth_error l i = Some b -> (i < List.length l)%nat.
Proof. intros H. apply nth_error_Some. rewrite H. discriminate. Qed.

(** A type-length byte without extended length. *)
Lemma tl_short p b :
  nth_error (sdata p) (pos p) = Some b -> Z.land b 15 <> 15 ->
  parse_type_length p
  = Done (Ok (Z.land (Z.shiftr b 4) 7, Z.to_nat (Z.land b 15)), at_pos p (S (pos p))).
Proof.
  intros Hb Hl. pose proof (nth_lt _ _ _ Hb) as Hlt.
  unfold parse_type_length.
  replace ((List.length (sdata p) <=? pos p)%nat) with false
    by (symmetry; apply Nat.leb_gt; exact Hlt).
  rewrite (byte_at_nth _ _ _ Hb). cbn [obind].
  apply Z.eqb_neq in Hl. rewrite Hl. reflexivity.
Qed.

(** A type-length byte with the extended length byte [e] after it. *)
Lemma tl_ext p b e :
  nth_error (sdata p) (pos p) = Some b -> Z.land b 15 = 15 ->
  nth_error (sdata p) (S (pos p)) = Some e ->
  parse_type_length p
  = Done (Ok (Z.land (Z.shiftr b 4) 7, Z.to_nat e), at_pos p (S (S (pos p)))).
Proof.
  intros Hb Hl He. pose proof (nth_lt _ _ _ Hb) as Hlt. pose proof (nth_lt _ _ _ He) as Hlt'.
  unfold parse_type_length.
  replace ((List.length (sdata p) <=? pos p)%nat) with false
    by (symmetry; apply Nat.leb_gt; exact Hlt).
  rewrite (byte_at_nth _ _ _ Hb). cbn [obind].
  rewrite Hl, Z.eqb_refl. cbn [sdata pos].
  replace ((List.length (sdata p) <=? S (pos p))%nat) with false
    by (symmetry; apply Nat.leb_gt; exact Hlt').
  rewrite (byte_at_nth {| sdata := sdata p; pos := S (pos p) |} _ e He). reflexivity.
Qed.

Lemma bytes_at_slice p i n :
  (i + n <= List.length (sdata p))%nat ->
  bytes_at p i n = Done (firstn n (skipn i (sdata p))).
Proof.
  revert i. induction n as [| n IH]; intros i Hn; [reflexivity |].
  cbn [bytes_at].
  destruct (nth_error (sdata p) i) as [b |] eqn:E.
  2:{ apply nth_error_None in E. lia. }
  rewrite (byte_at_nth _ _ _ E). cbn [obind]. rewrite IH by lia. cbn [obind].
  f_equal. rewrite <- (firstn_skipn i (sdata p)) in E.
  rewrite nth_error_app2 in E by (rewrite length_firstn; lia).
  rewrite length_firstn, Nat.min_l, Nat.sub_diag in E by lia.
  destruct (skipn i (sdata p)) as [| x r] eqn:Es; [discriminate |].
  cbn in E. injection E as ->. cbn [firstn]. f_equal.
  replace (S i) with (1 + i)%nat by lia. rewrite <- skipn_skipn, Es. reflexivity.
Qed.

Lemma fixed_ok {A} msg n (conv : list Z -> A) p b :
  nth_error (sdata p) (pos p) = Some b -> Z.land b 15 <> 15 ->
  Z.to_nat (Z.land b 15) = n ->
  (S (pos p) + n <= List.length (sdata p))%nat ->
  fixed msg n conv p
  = Done (Ok (conv (firstn n (skipn (S (pos p)) (sdata p)))), at_pos p (S (pos p) + n)).
Proof.
  intros Hb Hl Hn Hlen. unfold fixed, sbind. rewrite (tl_short _ _ Hb Hl). cbn [obind].
  rewrite Hn, Nat.eqb_refl. cbn [negb sdata pos at_pos].
  replace ((List.length (sdata p) <? S (pos p) + n)%nat) with false
    by (symmetry; apply Nat.ltb_ge; exact Hlen).
  rewrite (bytes_at_slice (at_pos p (S (pos p)))) by exact Hlen. reflexivity.
Qed.

Lemma fixed_bad_len {A} msg n (conv : list Z -> A) p b :
  nth_error (sdata p) (pos p) = Some b -> Z.land b 15 <> 15 ->
  Z.to_nat (Z.land b 15) <> n ->
  fixed msg n conv p = Done (Err (ParseError msg), at_pos p (S (pos p))).
Proof.
  intros Hb Hl Hn. unfold fixed, sbind. rewrite (tl_short _ _ Hb Hl). cbn [obind].
  apply Nat.eqb_neq in Hn. rewrite Hn. reflexivity.
Qed.


(** TL byte [more * 128 + t * 16 + l]: type [t] and length [l], or the
    next byte as length when [l = 15]; the top bit is ignored. *)
Theorem parse_type_length_encoding (pre rest : list Z) (more t l e : Z) :
  0 <= more <= 1 -> 0 <= t < 8 -> 0 <= l < 16 ->
  parse_type_length {| sdata := pre ++ (more * 128 + t * 16 + l) :: e :: rest;
                       pos := List.length pre |}
  = if l =? 15
    then Done (Ok (t, Z.to_nat e), {| sdata := pre ++ (more * 128 + t * 16 + l) :: e :: rest;
                                       pos := S (S (List.length pre)) |})
    else Done (Ok (t, Z.to_nat l), {| sdata := pre ++ (more * 128 + t * 16 + l) :: e :: rest;
                                       pos := S (List.length pre) |}).
Proof.
  intros Hm Ht Hl.
  set (b := more * 128 + t * 16 + l).
  assert (Hlo : Z.land b 15 = l).
  { change 15 with (Z.ones 4). rewrite Z.land_ones by lia. unfold b.
    change (2 ^ 4) with 16. clear b. Z.div_mod_to_equations. lia. }
  assert (Hty : Z.land (Z.shiftr b 4) 7 = t).
  { change 7 with (Z.ones 3). rewrite Z.land_ones, Z.shiftr_div_pow2 by lia. unfold b.
    change (2 ^ 4) with 16; change (2 ^ 3) with 8. clear Hlo b. Z.div_mod_to_equations. lia. }
  assert (H0 : nth_error (pre ++ b :: e :: rest) (List.length pre) = Some b)
    by (rewrite nth_error_app2, Nat.sub_diag by lia; reflexivity).
  assert (H1 : nth_error (pre ++ b :: e :: rest) (S (List.length pre)) = Some e)
    by (rewrite nth_error_app2 by lia; replace (S (List.length pre) - List.length pre)%nat
          with 1%nat by lia; reflexivity).
  destruct (Z.eqb_spec l 15) as [E | E].
  - rewrite (tl_ext {| sdata := pre ++ b :: e :: rest; pos := List.length pre |} b e)
      by first [exact H0 | exact H1 | congruence]. rewrite Hty. reflexivity.
  - rewrite (tl_short {| sdata := pre ++ b :: e :: rest; pos := List.length pre |} b)
      by first [exact H0 | congruence]. rewrite Hty, Hlo. reflexivity.
Qed.

Lemma nth_app_len (pre l : list Z) k :
  nth_error (pre ++ l)%list (List.length pre + k) = nth_error l k.
Proof. rewrite nth_error_app2 by lia. f_equal. lia. Qed.

Lemma skipn_app_len (pre l : list Z) k :
  skipn (List.length pre + k) (pre ++ l)%list = skipn k l.
Proof. rewrite skipn_app, skipn_all2 by lia. cbn. f_equal. lia. Qed.

(** The fixed-width readers take the next [n] bytes big-endian whatever the
    type nibble of their TL byte, provided its length nibble is [n]. *)
Theorem sml_fixed_width_big_endian (pre rest : list Z) (tl b0 b1 b2 b3 : Z) :
  Z.land tl 15 = 4 ->
  let d := (pre ++ tl :: b0 :: b1 :: b2 :: b3 :: rest)%list in
  parse_unsigned32 {| sdata := d; pos := List.length pre |}
  = Done (Ok (b0 * 2 ^ 24 + b1 * 2 ^ 16 + b2 * 2 ^ 8 + b3),
          {| sdata := d; pos := List.length pre + 5 |})
  /\ parse_signed32 {| sdata := d; pos := List.length pre |}
  = Done (Ok (to_signed 32 (b0 * 2 ^ 24 + b1 * 2 ^ 16 + b2 * 2 ^ 8 + b3)),
          {| sdata := d; pos := List.length pre + 5 |}).
Proof.
  intros Htl d.
  assert (H0 : nth_error (sdata {| sdata := d; pos := List.length pre |})
                 (pos {| sdata := d; pos := List.length pre |}) = Some tl).
  { cbn. unfold d. rewrite <- (Nat.add_0_r (List.length pre)), nth_app_len. reflexivity. }
  assert (Hl : (S (List.length pre) + 4 <= List.length d)%nat)
    by (unfold d; rewrite length_app; cbn; lia).
  assert (Hsl : firstn 4 (skipn (S (List.length pre)) d) = [b0; b1; b2; b3]).
  { unfold d. replace (S (List.length pre)) with (List.length pre + 1)%nat by lia.
    rewrite skipn_app_len. reflexivity. }
  unfold parse_unsigned32, parse_signed32.
  rewrite !(fixed_ok _ 4 _ _ tl H0) by (cbn [sdata pos]; first [rewrite Htl; discriminate | rewrite Htl; reflexivity | exact Hl]).
  cbn [sdata pos]. rewrite Hsl. unfold at_pos. cbn [sdata pos].
  replace (S (List.length pre) + 4)%nat with (List.length pre + 5)%nat by lia.
  unfold from_be_bytes. cbn [fold_left].
  replace ((((0 * 256 + b0) * 256 + b1) * 256 + b2) * 256 + b3)
    with (b0 * 2 ^ 24 + b1 * 2 ^ 16 + b2 * 2 ^ 8 + b3) by ring.
  split; reflexivity.
Qed.

(** A TL byte whose length nibble is neither the width nor 15 (the escape
    to a multi-byte length) is rejected, after consuming it; the SML
    encoding of an unsigned8, [0x62 xx] (length 2 counting the TL byte), is
    one of them. *)
Theorem sml_unsigned_length_mismatch (p : SmlParser) (b : Z) :
  nth_error (sdata p) (pos p) = Some b -> Z.land b 15 <> 15 ->
  (Z.land b 15 <> 1 -> parse_unsigned8 p
     = Done (Err (ParseError "Invalid unsigned8 length"), at_pos p (S (pos p))))
  /\ (Z.land b 15 <> 2 -> parse_unsigned16 p
     = Done (Err (ParseError "Invalid unsigned16 length"), at_pos p (S (pos p))))
  /\ (Z.land b 15 <> 4 -> parse_unsigned32 p
     = Done (Err (ParseError "Invalid unsigned32 length"), at_pos p (S (pos p)))).
Proof.
  intros Hb Hl.
  assert (Hr : 0 <= Z.land b 15) by (apply Z.land_nonneg; lia).
  split; [| split]; intros Hn; apply (fixed_bad_len _ _ _ p b Hb Hl); lia.
Qed.

Lemma sml_unsigned_length_mismatch_witness :
  parse_unsigned8 (new [0x62; 0x00])
  = Done (Err (ParseError "Invalid unsigned8 length"), at_pos (new [0x62; 0x00]) 1).
Proof.
  destruct (sml_unsigned_length_mismatch (new [0x62; 0x00]) 0x62) as [H _];
    [reflexivity | discriminate |].
  apply H. discriminate.
Defined.

Lemma sml_fixed_width_big_endian_witness :
  parse_unsigned32 {| sdata := [] ++ [0x64; 0x00; 0x01; 0x02; 0x03]; pos := 0 |}
  = Done (Ok (0 * 2 ^ 24 + 1 * 2 ^ 16 + 2 * 2 ^ 8 + 3),
          {| sdata := [] ++ [0x64; 0x00; 0x01; 0x02; 0x03]; pos := 0 + 5 |}).
Proof.
  apply (sml_fixed_width_big_endian [] [] 0x64 0 1 2 3). reflexivity.
Defined.

Lemma sbind_sret_some {A} (m : st A) (C : A -> SmlValue) p v p' :
  sbind m (fun a => sret (Some (C a))) p = Done (Ok (Some v), p') -> exists a, v = C a.
Proof.
  unfold sbind. destruct (m p) as [[[a | e] p1] |]; cbn; intros H; try discriminate.
  injection H as <- _. eauto.
Qed.

(** [parse_optional_value] never yields an unsigned value: type 0 is
    answered by [None] before the unsigned arm is reached. *)
Theorem parse_optional_value_never_unsigned (p p' : SmlParser) (v : SmlValue) :
  parse_optional_value p = Done (Ok (Some v), p') ->
  match v with UInt8 _ | UInt16 _ | UInt32 _ | UInt64 _ => False | _ => True end.
Proof.
  unfold parse_optional_value at 1. unfold sbind at 1.
  destruct (parse_type_length p) as [[[[t l] | e] p1] |]; cbn [obind];
    intros H; try discriminate.
  destruct (t =? 0) eqn:T0; [unfold sret in H; discriminate |].
  destruct (t =? 5).
  { destruct (sbind_sret_some _ _ _ _ _ H) as [a ->]. exact I. }
  destruct (t =? 6).
  { destruct l as [| [| [| [| [| [| [| [| [| l']]]]]]]]];
      try (unfold sfail in H; discriminate);
      destruct (sbind_sret_some _ _ _ _ _ H) as [a ->]; exact I. }
  destruct (Nat.ltb _ _) in H; [discriminate |].
  injection H as <- _. exact I.
Qed.

Lemma parse_optional_value_never_unsigned_witness :
  parse_optional_value (new [0x62; 0xFF; 0xFE])
  = Done (Ok (Some (Int16 (-2))), at_pos (new [0x62; 0xFF; 0xFE]) 3) /\ True.
Proof.
  split; [reflexivity |].
  exact (parse_optional_value_never_unsigned (new [0x62; 0xFF; 0xFE])
           (at_pos (new [0x62; 0xFF; 0xFE]) 3) (Int16 (-2)) eq_refl).
Defined.

Ltac eval_consts :=
  repeat match goal with
  | |- context [Z.to_nat (Z.land (0x60 + Z.of_nat ?k) 15)] =>
      let v := eval vm_compute in (Z.to_nat (Z.land (0x60 + Z.of_nat k) 15)) in
      change (Z.to_nat (Z.land (0x60 + Z.of_nat k) 15)) with v
  | |- context [Z.land (Z.shiftr (0x60 + Z.of_nat ?k) 4) 7] =>
      let v := eval vm_compute in (Z.land (Z.shiftr (0x60 + Z.of_nat k) 4) 7) in
      change (Z.land (Z.shiftr (0x60 + Z.of_nat k) 4) 7) with v
  end.

(** Type 6 with length 1, 2, 4 or 8 is read as a big-endian two's
    complement integer of that many bytes. *)
Theorem parse_optional_value_signed (pre rest bs : list Z) (n : nat) :
  In n [1; 2; 4; 8]%nat -> List.length bs = n ->
  let d := (pre ++ (0x60 + Z.of_nat n) :: bs ++ rest)%list in
  let z := to_signed (8 * Z.of_nat n) (from_be_bytes bs) in
  parse_optional_value {| sdata := d; pos := List.length pre |}
  = Done (Ok (Some (if (n =? 1)%nat then Int8 z else if (n =? 2)%nat then Int16 z
                    else if (n =? 4)%nat then Int32 z else Int64 z)),
          {| sdata := d; pos := S (List.length pre) + n |}).
Proof.
  intros Hn Hbs d z.
  assert (H0 : nth_error (sdata {| sdata := d; pos := List.length pre |})
                 (pos {| sdata := d; pos := List.length pre |}) = Some (0x60 + Z.of_nat n)).
  { cbn. unfold d. rewrite <- (Nat.add_0_r (List.length pre)), nth_app_len. reflexivity. }
  assert (Hl : (S (List.length pre) + n <= List.length d)%nat)
    by (unfold d; rewrite length_app; cbn; rewrite length_app; lia).
  assert (Hsl : firstn n (skipn (S (List.length pre)) d) = bs).
  { unfold d. replace (S (List.length pre)) with (List.length pre + 1)%nat by lia.
    rewrite skipn_app_len. cbn. rewrite firstn_app, <- Hbs, firstn_all, Nat.sub_diag.
    apply app_nil_r. }
  unfold parse_optional_value at 1, sbind at 1.
  destruct Hn as [<- | [<- | [<- | [<- | []]]]];
    (rewrite (tl_short _ _ H0) by (cbn; discriminate)); cbn [obind]; eval_consts;
    cbn -[parse_signed8 parse_signed16 parse_signed32 parse_signed64 sbind sret Z.of_nat];
    rewrite Nat.sub_0_r;
    unfold parse_signed8, parse_signed16, parse_signed32, parse_signed64, sbind at 1;
    (rewrite (fixed_ok _ _ _ _ _ H0) by (cbn; first [discriminate | reflexivity | exact Hl]));
    cbn [obind pos sdata]; rewrite Hsl; unfold sret, at_pos, z; cbn [pos sdata]; repeat f_equal; lia.
Qed.

Lemma parse_optional_value_signed_witness :
  parse_optional_value {| sdata := ([] ++ (0x60 + Z.of_nat 2) :: [0xFF; 0xFE] ++ [])%list;
                          pos := 0 |}
  = Done (Ok (Some (Int16 (to_signed 16 (from_be_bytes [0xFF; 0xFE])))),
          {| sdata := ([] ++ (0x60 + Z.of_nat 2) :: [0xFF; 0xFE] ++ [])%list; pos := 3 |}).
Proof.
  exact (parse_optional_value_signed [] [] [0xFF; 0xFE] 2 ltac:(simpl; tauto) eq_refl).
Defined.
Lemma parse_type_length_encoding_witness :
  parse_type_length {| sdata := [] ++ (0 * 128 + 7 * 16 + 2) :: 5 :: []; pos := 0 |}
  = Done (Ok (7, 2%nat), {| sdata := [] ++ (0 * 128 + 7 * 16 + 2) :: 5 :: []; pos := 1 |}).
Proof.
  exact (parse_type_length_encoding [] [] 0 7 2 5 ltac:(lia) ltac:(lia) ltac:(lia)).
Defined.
End SmlGrammarFacts.

Module SmlFrameFacts.
Import Sml SmlGrammar SmlFrame.

Lemma first_from_some (p : nat -> bool) (from n i : nat) :
  first_from p from n = Some i <->
  (from <= i < from + n)%nat /\ p i = true /\ (forall j, (from <= j < i)%nat -> p j = false).
Proof.
  revert from. induction n as [| n IH]; intros from; cbn.
  - split; [discriminate | lia].
  - destruct (p from) eqn:Hp.
    + split.
      * intros [= <-]. split; [lia |]. split; [exact Hp | intros; lia].
      * intros (Hr & Hi & Hj). destruct (Nat.eq_dec from i) as [-> | Hne]; [reflexivity |].
        rewrite Hj in Hp by lia. discriminate.
    + rewrite IH. split.
      * intros (Hr & Hi & Hj). split; [lia |]. split; [exact Hi |].
        intros j Hj'. destruct (Nat.eq_dec j from) as [-> | ]; [exact Hp | apply Hj; lia].
      * intros (Hr & Hi & Hj). assert (from <> i) by (intros ->; congruence).
        split; [lia |]. split; [exact Hi | intros j Hj'; apply Hj; lia].
Qed.

Lemma list_eqb_true l1 l2 : list_eqb l1 l2 = true <-> l1 = l2.
Proof.
  revert l2. induction l1 as [| a r IH]; intros [| b r2]; cbn;
    try (split; congruence).
  rewrite Bool.andb_true_iff, Z.eqb_eq, IH. split; [intros [-> ->]; reflexivity | intros [= -> ->]; tauto].
Qed.

Lemma list_eqb_false l1 l2 : list_eqb l1 l2 = false <-> l1 <> l2.
Proof. rewrite <- list_eqb_true. destruct (list_eqb l1 l2); intuition congruence. Qed.

(** [find_sml_start] returns the first position whose four bytes are the
    start sequence, but only positions [i] with [i + 4 < length data] are
    scanned: a start sequence in the last four bytes is never found. *)
Theorem find_sml_start_spec (data : list Z) (i : nat) :
  find_sml_start data = Ok i <->
  (i + 4 < List.length data)%nat /\ window data i = SML_START_SEQUENCE /\
  (forall j, (j < i)%nat -> window data j <> SML_START_SEQUENCE).
Proof.
  unfold find_sml_start.
  assert (E : forall o : option nat, match o with Some i => Ok i | None => Err InvalidMessage end
              = @Ok SmlError nat i <-> o = Some i)
    by (intros [k |]; split; congruence).
  rewrite E, first_from_some, list_eqb_true. split.
  - intros (Hr & Hw & Hj). split; [lia |]. split; [exact Hw |].
    intros j Hji. apply list_eqb_false, Hj. lia.
  - intros (Hr & Hw & Hj). split; [lia |]. split; [exact Hw |].
    intros j Hji. apply list_eqb_false, Hj. lia.
Qed.

(** [find_sml_end] returns the first position at or after [start_pos + 4]
    whose four bytes are the end sequence; unlike the start, an end
    sequence that closes the data is found. *)
Theorem find_sml_end_spec (data : list Z) (start_pos i : nat) :
  find_sml_end data start_pos = Ok i <->
  (start_pos + 4 <= i)%nat /\ (i + 4 <= List.length data)%nat /\
  window data i = SML_END_SEQUENCE /\
  (forall j, (start_pos + 4 <= j < i)%nat -> window data j <> SML_END_SEQUENCE).
Proof.
  unfold find_sml_end.
  assert (E : forall o : option nat, match o with Some i => Ok i | None => Err InvalidMessage end
              = @Ok SmlError nat i <-> o = Some i)
    by (intros [k |]; split; congruence).
  rewrite E, first_from_some, Bool.andb_true_iff, list_eqb_true, Nat.leb_le. split.
  - intros (Hr & [Hl Hw] & Hj). split; [lia |]. split; [lia |]. split; [exact Hw |].
    intros j Hji. specialize (Hj j Hji). apply Bool.andb_false_iff in Hj.
    destruct Hj as [Hj | Hj]; [apply Nat.leb_gt in Hj; lia | apply list_eqb_false, Hj].
  - intros (Hr & Hl & Hw & Hj). split; [lia |]. split; [split; [exact Hl | exact Hw] |].
    intros j Hji. apply Bool.andb_false_iff. right. apply list_eqb_false, Hj. lia.
Qed.

(** A start sequence directly followed by the end sequence makes
    [parse_sml_message] panic (the slice [start_pos + 8 .. end_pos] has its
    start after its end) instead of returning an error, whatever follows. *)
Theorem parse_sml_message_empty_frame_panics (rest : list Z) :
  parse_sml_message (SML_START_SEQUENCE ++ SML_END_SEQUENCE ++ rest)%list = Panic.
Proof.
  unfold parse_sml_message.
  assert (Hs : find_sml_start (SML_START_SEQUENCE ++ SML_END_SEQUENCE ++ rest)%list = Ok 0%nat).
  { apply find_sml_start_spec. cbn. split; [lia |]. split; [reflexivity | intros; lia]. }
  assert (He : find_sml_end (SML_START_SEQUENCE ++ SML_END_SEQUENCE ++ rest)%list 0 = Ok 4%nat).
  { apply find_sml_end_spec. cbn. split; [lia |]. split; [lia |].
    split; [reflexivity | intros; lia]. }
  rewrite Hs, He. reflexivity.
Qed.

End SmlFrameFacts.

Module SmlFileFacts.
Import Sml SmlGrammar.

Lemma file_loop_extends f acc p ms q :
  file_loop f acc p = Done (ms, q) -> exists l, ms = (acc ++ l)%list.
Proof.
  revert acc p. induction f as [| f IH]; intros acc p H; cbn [file_loop] in H; [discriminate |].
  destruct (pos p <? List.length (sdata p))%nat.
  - destruct (byte_at p (pos p)) as [b |]; cbn [obind] in H; [| discriminate].
    destruct (b =? 0).
    + injection H as <- _. exists []. symmetry. apply app_nil_r.
    + destruct (parse_message p) as [[[m | e] p'] |]; cbn [obind] in H; [| | discriminate].
      * destruct (IH _ _ H) as [l ->]. exists (m :: l). rewrite <- app_assoc. reflexivity.
      * injection H as <- _. exists []. symmetry. apply app_nil_r.
  - injection H as <- _. exists []. symmetry. apply app_nil_r.
Qed.

(** [parse_sml_file] reports "No valid SML messages found" when the data
    is exhausted or the next byte is the end-of-file marker 0x00. *)
Theorem parse_sml_file_nothing_to_parse (p : SmlParser) :
  (List.length (sdata p) <= pos p)%nat \/ nth_error (sdata p) (pos p) = Some 0 ->
  parse_sml_file p = Done (Err (ParseError "No valid SML messages found"), p).
Proof.
  intros [Hl | Hz]; unfold parse_sml_file; cbn [file_loop].
  - destruct (pos p <? List.length (sdata p))%nat eqn:E; [apply Nat.ltb_lt in E; lia |].
    reflexivity.
  - assert (Hl : (pos p < List.length (sdata p))%nat) by (apply nth_error_Some; congruence).
    apply Nat.ltb_lt in Hl. rewrite Hl, (SmlGrammarFacts.byte_at_nth _ _ _ Hz). reflexivity.
Qed.

(** When the first message fails to parse, [parse_sml_file] drops its
    error and reports "No valid SML messages found", at the position where
    the message parser stopped. *)
Theorem parse_sml_file_first_error_hidden (p p' : SmlParser) (b : Z) (e : SmlError) :
  nth_error (sdata p) (pos p) = Some b -> b <> 0 ->
  parse_message p = Done (Err e, p') ->
  parse_sml_file p = Done (Err (ParseError "No valid SML messages found"), p').
Proof.
  intros Hb Hnz Hm. unfold parse_sml_file; cbn [file_loop].
  assert (Hl : (pos p < List.length (sdata p))%nat) by (apply nth_error_Some; congruence).
  apply Nat.ltb_lt in Hl. rewrite Hl, (SmlGrammarFacts.byte_at_nth _ _ _ Hb). cbn [obind].
  apply Z.eqb_neq in Hnz. rewrite Hnz, Hm. reflexivity.
Qed.

(** Once the first message parses, [parse_sml_file] succeeds with that
    message first, whatever the following data is (a later message that
    fails only ends the list). *)
Theorem parse_sml_file_keeps_first (p p' q : SmlParser) (b : Z) (m : SmlMessage)
    (r : result SmlError SmlFile) :
  nth_error (sdata p) (pos p) = Some b -> b <> 0 ->
  parse_message p = Done (Ok m, p') ->
  parse_sml_file p = Done (r, q) ->
  exists ms, r = Ok {| messages := m :: ms |}.
Proof.
  intros Hb Hnz Hm H. unfold parse_sml_file in H; cbn [file_loop] in H.
  assert (Hl : (pos p < List.length (sdata p))%nat) by (apply nth_error_Some; congruence).
  apply Nat.ltb_lt in Hl. rewrite Hl, (SmlGrammarFacts.byte_at_nth _ _ _ Hb) in H. cbn [obind] in H.
  apply Z.eqb_neq in Hnz. rewrite Hnz, Hm in H. cbn [obind] in H.
  destruct (file_loop (List.length (sdata p)) ([] ++ [m]) p') as [[ms q'] |] eqn:Hf;
    cbn [obind] in H; [| discriminate].
  destruct (file_loop_extends _ _ _ _ _ Hf) as [l ->].
  injection H as <- _. exists l. reflexivity.
Qed.

Lemma parse_sml_file_nothing_to_parse_witness :
  parse_sml_file (new [0x00; 0x76]) =
  Done (Err (ParseError "No valid SML messages found"), new [0x00; 0x76]).
Proof.
  apply parse_sml_file_nothing_to_parse. right. reflexivity.
Defined.

Lemma parse_sml_file_first_error_hidden_witness :
  parse_sml_file (new [0x01]) =
  Done (Err (ParseError "No valid SML messages found"), {| sdata := [0x01]; pos := 1 |}).
Proof.
  apply (parse_sml_file_first_error_hidden _ _ 0x01 (ParseError "Unexpected end of data"));
    [reflexivity | discriminate | vm_compute; reflexivity].
Defined.

Lemma parse_sml_file_keeps_first_witness :
  exists m ms, parse_sml_file (new (Inputs.sml_one_message ++ Inputs.sml_one_message ++ [0x62])%list)
               = Done (Ok {| messages := m :: ms |}, {| sdata := (Inputs.sml_one_message ++ Inputs.sml_one_message ++ [0x62])%list; pos := 25 |}).
Proof.
  destruct (parse_message (new (Inputs.sml_one_message ++ Inputs.sml_one_message ++ [0x62])%list)) as [[[m | e] p'] |] eqn:Hm;
    [| vm_compute in Hm; discriminate | vm_compute in Hm; discriminate].
  destruct (parse_sml_file (new (Inputs.sml_one_message ++ Inputs.sml_one_message ++ [0x62])%list)) as [[r q] |] eqn:Hf;
    [| vm_compute in Hf; discriminate].
  destruct (parse_sml_file_keeps_first (new (Inputs.sml_one_message ++ Inputs.sml_one_message ++ [0x62])%list) _ _ 0x01 m r eq_refl ltac:(discriminate) Hm Hf) as [ms ->].
  exists m, ms. vm_compute in Hf. injection Hf; intros; subst; reflexivity.
Defined.

End SmlFileFacts.


Module OmsCrcFacts.
Import Oms OmsSpec.

Lemma idx_at_len (pre post : list Z) b :
  idx (pre ++ b :: post)%list (Z.of_nat (List.length pre)) = Done b.
Proof.
  unfold idx. destruct (Z.of_nat (List.length pre) <? 0) eqn:E; [apply Z.ltb_lt in E; lia |].
  rewrite Nat2Z.id, nth_error_app2, Nat.sub_diag by lia. reflexivity.
Qed.

Lemma crc_block_app (pre bs post : list Z) crc acc :
  crc_block (pre ++ bs ++ post)%list (Z.of_nat (List.length pre)) (List.length bs) crc acc
  = Done (fold_left crc_update bs crc, (acc ++ bs)%list).
Proof.
  revert pre crc acc. induction bs as [| b bs IH]; intros pre crc acc.
  - cbn. rewrite app_nil_r. reflexivity.
  - cbn [List.length crc_block]. change ((b :: bs) ++ post)%list with (b :: (bs ++ post))%list.
    rewrite idx_at_len. cbn [obind].
    replace (pre ++ b :: bs ++ post)%list with ((pre ++ [b]) ++ bs ++ post)%list
      by (rewrite <- app_assoc; reflexivity).
    replace (Z.of_nat (List.length pre) + 1) with (Z.of_nat (List.length (pre ++ [b])))
      by (rewrite length_app; cbn; lia).
    rewrite IH. cbn. rewrite <- app_assoc. reflexivity.
Qed.

Lemma crc_round_block (pre bs post : list Z) (first : bool) (acc : list Z) :
  let tel := (pre ++ with_crc bs ++ post)%list in
  let tlen := Z.of_nat (List.length tel) in
  let start := Z.of_nat (List.length pre) in
  (if tlen <? start + 17 then tlen - start - 2 else if first then 10 else 16)
    = Z.of_nat (List.length bs) ->
  crc_round tel start first acc
  = Done (match post with
          | [] => inr (Ok (acc ++ bs)%list)
          | _ => inl (start + Z.of_nat (List.length bs) + 2, (acc ++ bs)%list)
          end).
Proof.
  intros tel tlen start Hlen. unfold crc_round. fold tlen. rewrite Hlen.
  destruct (Z.of_nat (List.length bs) <? 0) eqn:E; [apply Z.ltb_lt in E; lia |].
  rewrite Nat2Z.id. unfold tel, with_crc. rewrite <- app_assoc.
  rewrite crc_block_app. cbn [obind].
  change (crc_get (fold_left crc_update bs 0)) with (crc_of bs).
  replace (start + Z.of_nat (List.length bs)) with (Z.of_nat (List.length (pre ++ bs)))
    by (unfold start; rewrite length_app; lia).
  replace (pre ++ bs ++ [Z.shiftr (crc_of bs) 8; Z.land (crc_of bs) 255] ++ post)%list
    with ((pre ++ bs) ++ Z.shiftr (crc_of bs) 8 :: Z.land (crc_of bs) 255 :: post)%list
    by (rewrite <- app_assoc; reflexivity).
  rewrite idx_at_len. cbn [obind]. rewrite Z.eqb_refl. cbn [negb].
  replace (Z.of_nat (List.length (pre ++ bs)) + 1)
    with (Z.of_nat (List.length ((pre ++ bs) ++ [Z.shiftr (crc_of bs) 8])))
    by (rewrite length_app; cbn; lia).
  replace ((pre ++ bs) ++ Z.shiftr (crc_of bs) 8 :: Z.land (crc_of bs) 255 :: post)%list
    with (((pre ++ bs) ++ [Z.shiftr (crc_of bs) 8]) ++ Z.land (crc_of bs) 255 :: post)%list
    by (rewrite <- app_assoc; reflexivity).
  rewrite idx_at_len. cbn [obind]. rewrite Z.eqb_refl. cbn [negb].
  assert (Ht : tlen = Z.of_nat (List.length (pre ++ bs)) + 2 + Z.of_nat (List.length post)).
  { unfold tlen, tel, with_crc. rewrite !length_app. cbn [List.length]. lia. }
  rewrite length_app, Nat2Z.inj_add in Ht |- *. unfold start.
  destruct post as [| x post]; cbn [List.length] in Ht.
  - destruct (tlen =? _) eqn:E2; [reflexivity | apply Z.eqb_neq in E2; lia].
  - destruct (tlen =? _) eqn:E2; [apply Z.eqb_eq in E2; lia | reflexivity].
Qed.

Lemma length_with_crc bs : List.length (with_crc bs) = (List.length bs + 2)%nat.
Proof. unfold with_crc. rewrite length_app. reflexivity. Qed.

Lemma length_mids mids :
  Forall (fun b => List.length b = 16%nat) mids ->
  List.length (List.concat (map with_crc mids)) = (18 * List.length mids)%nat.
Proof.
  induction 1 as [| m ms Hm _ IH]; [reflexivity |].
  cbn [map List.concat List.length]. rewrite length_app, length_with_crc, IH. lia.
Qed.

Lemma crc_loop_mids (mids : list (list Z)) (pre post acc : list Z) (f : nat) :
  Forall (fun b => List.length b = 16%nat) mids -> post <> [] ->
  crc_loop (List.length mids + f) (pre ++ List.concat (map with_crc mids) ++ post)%list
           (Z.of_nat (List.length pre)) false acc
  = crc_loop f (pre ++ List.concat (map with_crc mids) ++ post)%list
           (Z.of_nat (List.length pre) + 18 * Z.of_nat (List.length mids)) false
           (acc ++ List.concat mids)%list.
Proof.
  intros Hf Hp. revert pre acc. induction Hf as [| m ms Hm Hms IH]; intros pre acc.
  - cbn [map List.concat List.length Nat.add]. rewrite Z.mul_0_r, Z.add_0_r, !app_nil_r.
    reflexivity.
  - cbn [List.length Nat.add crc_loop map List.concat].
    rewrite <- app_assoc.
    rewrite crc_round_block.
    2:{ rewrite !length_app, length_with_crc.
        destruct (_ <? _) eqn:E; [| lia].
        apply Z.ltb_lt in E. exfalso. destruct post as [| x xs]; [congruence |].
        cbn [List.length] in E. lia. }
    destruct (List.concat (map with_crc ms) ++ post)%list as [| x xs] eqn:HR.
    { apply app_eq_nil in HR. destruct HR; congruence. }
    rewrite <- HR in IH |- *. cbn [obind].
    rewrite app_assoc.
    replace (Z.of_nat (List.length pre) + Z.of_nat (List.length m) + 2)
      with (Z.of_nat (List.length (pre ++ with_crc m))) by (rewrite length_app, length_with_crc; lia).
    rewrite IH, <- (app_assoc acc m). f_equal.
    rewrite length_app, length_with_crc. lia.
Qed.

(** A telegram made of a 10-byte first block and 16-byte blocks, then
    possibly a last block of at most 14 bytes, each block followed by its
    CRC (EN 13757, high byte first), passes [verifiy_crc], which returns
    the blocks' data without the CRCs - provided the data after the first
    block is empty or at least 3 bytes long. *)
Theorem verifiy_crc_frame (first : list Z) (mids : list (list Z)) (tail : list Z) :
  List.length first = 10%nat ->
  Forall (fun b => List.length b = 16%nat) mids ->
  (List.length tail <= 14)%nat ->
  (mids = [] -> tail = [] \/ (3 <= List.length tail)%nat) ->
  verifiy_crc (frame first mids tail) = Done (Ok (first ++ List.concat mids ++ tail)%list).
Proof.
  intros H1 Hm Ht Hsh. unfold verifiy_crc, frame.
  set (post := (List.concat (map with_crc mids) ++ tail_crc tail)%list).
  assert (Hpl : List.length post = (18 * List.length mids + match tail with [] => 0 | _ => List.length tail + 2 end)%nat).
  { unfold post. rewrite length_app, length_mids by exact Hm. destruct tail; cbn [tail_crc];
      [reflexivity | rewrite length_with_crc; reflexivity]. }
  cbn [crc_loop].
  change (with_crc first ++ post)%list with ([] ++ with_crc first ++ post)%list.
  rewrite crc_round_block.
  2:{ cbn [List.length app]. rewrite length_app, length_with_crc, H1.
      destruct (_ <? _) eqn:E; [apply Z.ltb_lt in E | reflexivity].
      destruct mids as [| m ms]; [| cbn [List.length] in Hpl; lia].
      destruct (Hsh eq_refl) as [-> | H3]; [cbn [List.length Nat.mul] in Hpl; lia |].
      destruct tail; cbn [List.length] in *; lia. }
  cbn [app].
  destruct post as [| x xs] eqn:HP.
  { unfold post in HP. apply app_eq_nil in HP. destruct HP as [Hc Ht'].
    destruct mids as [| m ms]; [| cbn [map List.concat] in Hc; apply app_eq_nil in Hc as [Hc _];
      unfold with_crc in Hc; apply app_eq_nil in Hc as [_ Hc]; discriminate].
    destruct tail as [| t ts]; [| cbn in Ht'; discriminate].
    cbn. rewrite !app_nil_r. reflexivity. }
  rewrite <- HP. cbn [obind]. unfold post.
  replace (Z.of_nat (List.length (@nil Z)) + Z.of_nat (List.length first) + 2)
    with (Z.of_nat (List.length (with_crc first))) by (rewrite length_with_crc; cbn [List.length]; lia).
  destruct tail as [| t ts] eqn:ET.
  - (* the last block is a full one *)
    destruct mids as [| m0 ms0] using rev_ind; [unfold post in HP; cbn in HP; discriminate |].
    clear IHms0.
    apply Forall_app in Hm. destruct Hm as [Hm Hlast]. inversion Hlast as [| ? ? Hl0 _]; subst.
    rewrite map_app, concat_app. cbn [map List.concat tail_crc]. rewrite !app_nil_r.
    destruct (Nat.le_exists_sub (S (List.length ms0))
                (List.length (with_crc first ++ List.concat (map with_crc ms0) ++ with_crc m0)))
      as [k [Hk _]].
    { rewrite !length_app, length_mids, !length_with_crc by exact Hm. lia. }
    rewrite Hk, <- Nat.add_succ_comm, Nat.add_comm.
    rewrite crc_loop_mids by (first [exact Hm | unfold with_crc; destruct m0; discriminate]).
    cbn [crc_loop]. rewrite <- (app_nil_r (with_crc m0)), !app_assoc, <- (app_assoc _ (with_crc m0)).
    replace (Z.of_nat (List.length (with_crc first)) + 18 * Z.of_nat (List.length ms0))
      with (Z.of_nat (List.length (with_crc first ++ List.concat (map with_crc ms0))))
      by (rewrite length_app, length_mids by exact Hm; lia).
    rewrite crc_round_block.
    2:{ rewrite !length_app, length_mids, !length_with_crc, Hl0 by exact Hm.
        destruct (_ <? _) eqn:E; [apply Z.ltb_lt in E; lia | reflexivity]. }
    cbn [obind]. rewrite concat_app. cbn [List.concat]. rewrite !app_nil_r, !app_assoc. reflexivity.
  - (* a short last block *)
    rewrite <- ET. rewrite <- ET in Ht.
    destruct (Nat.le_exists_sub (S (List.length mids))
                (List.length (with_crc first ++ List.concat (map with_crc mids) ++ with_crc tail)))
      as [k [Hk _]].
    { rewrite !length_app, length_mids, !length_with_crc by exact Hm. lia. }
    replace (tail_crc tail) with (with_crc tail) by (rewrite ET; reflexivity).
    rewrite Hk, <- Nat.add_succ_comm, Nat.add_comm.
    rewrite crc_loop_mids by (first [exact Hm | unfold with_crc; destruct tail; discriminate]).
    cbn [crc_loop]. rewrite <- (app_nil_r (with_crc tail)), app_assoc.
    replace (Z.of_nat (List.length (with_crc first)) + 18 * Z.of_nat (List.length mids))
      with (Z.of_nat (List.length (with_crc first ++ List.concat (map with_crc mids))))
      by (rewrite length_app, length_mids by exact Hm; lia).
    rewrite crc_round_block.
    2:{ rewrite !length_app, length_mids, !length_with_crc by exact Hm.
        destruct (_ <? _) eqn:E; [| apply Z.ltb_ge in E; cbn [List.length] in E; lia].
        cbn [List.length]. lia. }
    cbn [obind]. rewrite !app_assoc. reflexivity.
Qed.

Lemma verifiy_crc_after_first (first : list Z) (mids : list (list Z)) (post : list Z) :
  List.length first = 10%nat ->
  Forall (fun b => List.length b = 16%nat) mids ->
  (5 <= List.length post)%nat ->
  exists k,
    verifiy_crc (with_crc first ++ List.concat (map with_crc mids) ++ post)%list
    = crc_loop (S k) (with_crc first ++ List.concat (map with_crc mids) ++ post)%list
        (Z.of_nat (List.length (with_crc first ++ List.concat (map with_crc mids))%list)) false
        (first ++ List.concat mids)%list.
Proof.
  intros H1 Hm Hp. unfold verifiy_crc. cbn [crc_loop].
  change (with_crc first ++ List.concat (map with_crc mids) ++ post)%list
    with ([] ++ with_crc first ++ (List.concat (map with_crc mids) ++ post))%list.
  rewrite crc_round_block.
  2:{ cbn [List.length app]. rewrite !length_app, length_with_crc, H1.
      destruct (_ <? _) eqn:E; [apply Z.ltb_lt in E; lia | reflexivity]. }
  destruct (List.concat (map with_crc mids) ++ post)%list as [| x xs] eqn:HR.
  { apply app_eq_nil in HR as [_ ->]. cbn in Hp. lia. }
  rewrite <- HR. cbn [obind app].
  destruct (Nat.le_exists_sub (S (List.length mids))
              (List.length (with_crc first ++ List.concat (map with_crc mids) ++ post)))
    as [k [Hk _]].
  { rewrite !length_app, length_mids, !length_with_crc by exact Hm. lia. }
  exists k. rewrite Hk, <- Nat.add_succ_comm, Nat.add_comm.
  replace (Z.of_nat (List.length (@nil Z)) + Z.of_nat (List.length first) + 2)
    with (Z.of_nat (List.length (with_crc first))) by (rewrite length_with_crc; cbn [List.length]; lia).
  rewrite crc_loop_mids by (first [exact Hm | destruct post; cbn in Hp; [lia | discriminate]]).
  cbn [crc_loop]. do 2 f_equal. rewrite length_app, length_mids by exact Hm. lia.
Qed.

(** A last block of exactly 15 data bytes is never accepted, even with
    its correct CRC: [verifiy_crc] then reads 16 bytes as data and either
    reports [CRCMissMatch] or indexes past the end and panics. *)
Theorem verifiy_crc_last_block_15 (first : list Z) (mids : list (list Z)) (tail : list Z) :
  List.length first = 10%nat ->
  Forall (fun b => List.length b = 16%nat) mids ->
  List.length tail = 15%nat ->
  verifiy_crc (frame first mids tail) = Done (Err CRCMissMatch) \/
  verifiy_crc (frame first mids tail) = Panic.
Proof.
  intros H1 Hm Ht. unfold frame.
  replace (tail_crc tail) with (with_crc tail) by (destruct tail; [discriminate | reflexivity]).
  destruct (verifiy_crc_after_first first mids (with_crc tail) H1 Hm)
    as [k ->]; [rewrite length_with_crc; lia |].
  set (pre := (with_crc first ++ List.concat (map with_crc mids))%list).
  rewrite app_assoc. fold pre. cbn [crc_loop].
  unfold crc_round.
  assert (Htl : Z.of_nat (List.length (pre ++ with_crc tail)) = Z.of_nat (List.length pre) + 17)
    by (rewrite length_app, length_with_crc; lia).
  rewrite Htl.
  replace (Z.of_nat (List.length pre) + 17 <? Z.of_nat (List.length pre) + 17) with false
    by (symmetry; apply Z.ltb_ge; lia).
  cbn [Z.ltb Z.compare Z.to_nat Pos.to_nat].
  set (hi := Z.shiftr (crc_of tail) 8). set (lo := Z.land (crc_of tail) 0xFF).
  replace (pre ++ with_crc tail)%list with (pre ++ (tail ++ [hi]) ++ [lo])%list
    by (unfold with_crc; rewrite <- app_assoc; reflexivity).
  change (PosDef.Pos.to_nat 16) with 16%nat.
  replace 16%nat with (List.length (tail ++ [hi])) by (rewrite length_app; cbn; lia).
  rewrite crc_block_app. cbn [obind].
  replace (Z.of_nat (List.length pre) + 16)
    with (Z.of_nat (List.length (pre ++ tail ++ [hi])))
    by (rewrite !length_app; cbn [List.length]; lia).
  rewrite app_assoc, idx_at_len. cbn [obind].
  destruct (negb _); [left; reflexivity | right].
  unfold idx. destruct (_ <? 0) eqn:E; [reflexivity |].
  rewrite (proj2 (nth_error_None _ _)); [reflexivity |].
  rewrite Z2Nat.inj_add, Nat2Z.id by lia. rewrite !length_app. cbn [List.length]. lia.
Qed.

Lemma verifiy_crc_frame_witness :
  verifiy_crc (frame [0x0F; 0x44; 0x93; 0x15; 0x78; 0x56; 0x34; 0x12; 0x33; 0x03] []
                     [0x7A; 0x2A; 0x00])
  = Done (Ok ([0x0F; 0x44; 0x93; 0x15; 0x78; 0x56; 0x34; 0x12; 0x33; 0x03] ++ List.concat []
              ++ [0x7A; 0x2A; 0x00])%list).
Proof.
  apply verifiy_crc_frame;
    [reflexivity | constructor | cbn; lia | intros _; right; cbn; lia].
Defined.

Lemma verifiy_crc_last_block_15_witness :
  verifiy_crc (frame [0x0F; 0x44; 0x93; 0x15; 0x78; 0x56; 0x34; 0x12; 0x33; 0x03] []
                     [1; 2; 3; 4; 5; 6; 7; 8; 9; 10; 11; 12; 13; 14; 15])
    = Done (Err CRCMissMatch) \/
  verifiy_crc (frame [0x0F; 0x44; 0x93; 0x15; 0x78; 0x56; 0x34; 0x12; 0x33; 0x03] []
                     [1; 2; 3; 4; 5; 6; 7; 8; 9; 10; 11; 12; 13; 14; 15]) = Panic.
Proof.
  apply verifiy_crc_last_block_15; [reflexivity | constructor | reflexivity].
Defined.

End OmsCrcFacts.

Module OmsUtilFacts.
Import Oms OmsSpec.

Lemma idx_nth (tel : list Z) (i : Z) b :
  0 <= i -> nth_error tel (Z.to_nat i) = Some b -> idx tel i = Done b.
Proof.
  intros Hi H. unfold idx. destruct (i <? 0) eqn:E; [apply Z.ltb_lt in E; lia |].
  rewrite H. reflexivity.
Qed.

(** The manufacturer field [m] (bytes 2 and 3, little endian) of three
    5-bit letter codes [c1 c2 c3] (['A'] = 1) is rendered as those three
    letters; the top bit of [m] is ignored. *)
Theorem get_manufacturer_letters (tel : list Z) (c1 c2 c3 x : Z) :
  0 <= c1 < 32 -> 0 <= c2 < 32 -> 0 <= c3 < 32 -> 0 <= x <= 1 ->
  let m := x * 32768 + c1 * 1024 + c2 * 32 + c3 in
  nth_error tel 2 = Some (m mod 256) -> nth_error tel 3 = Some (m / 256) ->
  get_manufacturer tel = Done (chr (c1 + 64) ++ chr (c2 + 64) ++ chr (c3 + 64)).
Proof.
  intros H1 H2 H3 Hx m Hlo Hhi. unfold get_manufacturer.
  rewrite (idx_nth tel 3 _ ltac:(lia) Hhi), (idx_nth tel 2 _ ltac:(lia) Hlo). cbn [obind].
  assert (Hm : Z.shiftl (m / 256) 8 + m mod 256 = m).
  { rewrite Z.shiftl_mul_pow2 by lia. change (2 ^ 8) with 256.
    pose proof (Z.div_mod m 256 ltac:(lia)). lia. }
  rewrite Hm.
  change 31 with (Z.ones 5). rewrite !Z.land_ones by lia.
  rewrite !Z.shiftr_div_pow2 by lia. change (2 ^ 5) with 32. change (2 ^ 10) with 1024.
  assert (E1 : m / 1024 mod 32 = c1).
  { unfold m. replace (x * 32768 + c1 * 1024 + c2 * 32 + c3)
      with ((c2 * 32 + c3) + (x * 32 + c1) * 1024) by ring.
    rewrite Z.div_add by lia. rewrite Z.div_small by lia.
    replace (0 + (x * 32 + c1)) with (c1 + x * 32) by ring.
    rewrite Z.mod_add by lia. apply Z.mod_small. lia. }
  assert (E2 : m / 32 mod 32 = c2).
  { unfold m. replace (x * 32768 + c1 * 1024 + c2 * 32 + c3)
      with (c3 + (x * 1024 + c1 * 32 + c2) * 32) by ring.
    rewrite Z.div_add by lia. rewrite Z.div_small by lia.
    replace (0 + (x * 1024 + c1 * 32 + c2)) with (c2 + (x * 32 + c1) * 32) by ring.
    rewrite Z.mod_add by lia. apply Z.mod_small. lia. }
  assert (E3 : m mod 32 = c3).
  { unfold m. replace (x * 32768 + c1 * 1024 + c2 * 32 + c3)
      with (c3 + (x * 1024 + c1 * 32 + c2) * 32) by ring.
    rewrite Z.mod_add by lia. apply Z.mod_small. lia. }
  rewrite E1, E2, E3. reflexivity.
Qed.

Lemma hex2_ok_all : forallb hex2_ok (seq 0 256) = true.
Proof. vm_compute. reflexivity. Qed.

Lemma hex2_decode (b : Z) (s : string) :
  0 <= b < 256 ->
  hex_decode_aux (hex2 b ++ s) = option_map (cons b) (hex_decode_aux s).
Proof.
  intros Hb.
  assert (Hn : hex2_ok (Z.to_nat b) = true).
  { pose proof hex2_ok_all as H. rewrite forallb_forall in H. apply H.
    apply in_seq. lia. }
  unfold hex2_ok in Hn. rewrite Z2Nat.id in Hn by lia.
  destruct (hex2 b) as [| a [| c [| ? ?]]]; try discriminate.
  destruct (hex_val a) as [x |] eqn:Ea; [| discriminate].
  destruct (hex_val c) as [y |] eqn:Ec; [| discriminate].
  apply Z.eqb_eq in Hn. cbn [append hex_decode_aux]. rewrite Ea, Ec.
  destruct (hex_decode_aux s); cbn [option_map]; [rewrite Hn; reflexivity | reflexivity].
Qed.

Lemma hex2_lower_all : forallb hex2_lower_ok (seq 0 256) = true.
Proof. vm_compute. reflexivity. Qed.

Lemma hex2_shape (b : Z) : 0 <= b < 256 ->
  exists a c, hex2 b = String a (String c EmptyString) /\ lower_hex a = true /\ lower_hex c = true.
Proof.
  intros Hb. assert (Hn : hex2_lower_ok (Z.to_nat b) = true).
  { pose proof hex2_lower_all as H. rewrite forallb_forall in H. apply H. apply in_seq. lia. }
  unfold hex2_lower_ok in Hn. rewrite Z2Nat.id in Hn by lia.
  destruct (hex2 b) as [| a [| c [| ? ?]]]; try discriminate.
  apply andb_prop in Hn as [Ha Hc]. eauto.
Qed.

(** [get_ident_no] renders bytes 7, 6, 5, 4 as eight lowercase hex digits:
    every character is one of [0-9] and [a-f], and decoding the string as
    hex gives those bytes back, most significant first. *)
Theorem get_ident_no_hex (tel : list Z) (t4 t5 t6 t7 : Z) :
  nth_error tel 4 = Some t4 -> nth_error tel 5 = Some t5 ->
  nth_error tel 6 = Some t6 -> nth_error tel 7 = Some t7 ->
  0 <= t4 < 256 -> 0 <= t5 < 256 -> 0 <= t6 < 256 -> 0 <= t7 < 256 ->
  match get_ident_no tel with
  | Done s => hex_decode s = [t7; t6; t5; t4] /\ String.length s = 8%nat
              /\ forallb lower_hex (list_ascii_of_string s) = true
  | Panic => False
  end.
Proof.
  intros H4 H5 H6 H7 B4 B5 B6 B7. unfold get_ident_no.
  rewrite (idx_nth tel 7 _ ltac:(lia) H7), (idx_nth tel 6 _ ltac:(lia) H6), (idx_nth tel 5 _ ltac:(lia) H5),
    (idx_nth tel 4 _ ltac:(lia) H4). cbn [obind]. split.
  - unfold hex_decode.
    rewrite (hex2_decode t7) by lia. rewrite (hex2_decode t6) by lia.
    rewrite (hex2_decode t5) by lia.
    assert (En : forall u : string, u = (u ++ "")%string)
      by (induction u as [| ? ? IH]; cbn; [reflexivity | rewrite <- IH; reflexivity]).
    rewrite (En (hex2 t4)), (hex2_decode t4) by lia. reflexivity.
  - destruct (hex2_shape t7 B7) as (a7 & c7 & -> & La7 & Lc7).
    destruct (hex2_shape t6 B6) as (a6 & c6 & -> & La6 & Lc6).
    destruct (hex2_shape t5 B5) as (a5 & c5 & -> & La5 & Lc5).
    destruct (hex2_shape t4 B4) as (a4 & c4 & -> & La4 & Lc4).
    split; [reflexivity |]. cbn [String.append list_ascii_of_string forallb].
    rewrite La7, Lc7, La6, Lc6, La5, Lc5, La4, Lc4. reflexivity.
Qed.

Lemma count_leading_2f_repeat k l :
  count_leading_2f (repeat 0x2F k ++ l)%list = (k + count_leading_2f l)%nat.
Proof. induction k as [| k IH]; [reflexivity | cbn; rewrite IH; reflexivity]. Qed.

(** [remove_oms_filler] drops the two leading bytes (the 0x2F 0x2F of a
    decrypted block) and the whole trailing run of 0x2F filler bytes:
    what is left is the payload, provided it does not itself end in
    0x2F. *)
Theorem remove_oms_filler_strips (a b : Z) (body : list Z) (k : nat) :
  last body 0 <> 0x2F ->
  remove_oms_filler (a :: b :: body ++ repeat 0x2F k)%list = body.
Proof.
  intros Hl. unfold remove_oms_filler. cbn [skipn].
  rewrite rev_app_distr, rev_repeat, count_leading_2f_repeat.
  assert (H0 : count_leading_2f (rev body) = 0%nat).
  { destruct body as [| x r] using rev_ind; [reflexivity |].
    rewrite rev_app_distr. cbn. rewrite last_last in Hl.
    apply Z.eqb_neq in Hl. rewrite Hl. reflexivity. }
  rewrite H0. cbn [List.length]. rewrite length_app, repeat_length.
  replace (S (S (List.length body + k)) - (k + 0 + 2))%nat with (List.length body) by lia.
  rewrite firstn_app, firstn_all, Nat.sub_diag. cbn. apply app_nil_r.
Qed.

Lemma get_manufacturer_letters_witness :
  get_manufacturer (Inputs.oms_tel 0 0) = Done (chr (5 + 64) ++ chr (12 + 64) ++ chr (19 + 64)).
Proof.
  apply (get_manufacturer_letters (Inputs.oms_tel 0 0) 5 12 19 0);
    [lia | lia | lia | lia | reflexivity | reflexivity].
Defined.

Lemma get_ident_no_hex_witness :
  match get_ident_no (Inputs.oms_tel 0 0) with
  | Done s => hex_decode s = [0x12; 0x34; 0x56; 0x78] /\ String.length s = 8%nat
              /\ forallb lower_hex (list_ascii_of_string s) = true
  | Panic => False
  end.
Proof.
  apply (get_ident_no_hex (Inputs.oms_tel 0 0) 0x78 0x56 0x34 0x12);
    first [reflexivity | lia].
Defined.

Lemma remove_oms_filler_strips_witness :
  remove_oms_filler (0x2F :: 0x2F :: [0x02; 0x13] ++ repeat 0x2F 3)%list = [0x02; 0x13].
Proof.
  apply remove_oms_filler_strips. cbn. discriminate.
Defined.

End OmsUtilFacts.

Module OmsSecurityFacts.
Import Oms.

(** In security mode 5, a configured key whose hex text does not decode to
    exactly 16 bytes (odd length, a non-hex digit, a wrong size) makes the
    decoder panic rather than report an error. *)
Theorem oms_security_bad_key_panics aes (h : OmsHeader) :
  security_mode h = 5 ->
  List.length (hex_decode (key (h_config h))) <> 16%nat ->
  oms_security aes h = Panic.
Proof.
  intros Hm Hk. unfold oms_security. rewrite Hm. cbn [Z.eqb Pos.eqb].
  unfold decrypt_mode5.
  destruct (h_telegram h) as [| t0 [| t1 [| t2 [| t3 [| t4 [| t5 [| t6 [| t7 [| t8 [| t9 tel]]]]]]]]]];
    try reflexivity.
  cbn -[List.length skipn hex_decode Nat.leb Nat.eqb].
  destruct (15 <=? _)%nat; [| reflexivity].
  apply Nat.eqb_neq in Hk. rewrite Hk. reflexivity.
Qed.

(** In security mode 5 with a 16-byte key, the decoder reports
    [DecryptionFailed] whenever the AES-CBC decryption of the bytes from
    offset 15, under the IV made of bytes 2..9 followed by the access
    number eight times, fails or does not start with the two 0x2F check
    bytes. *)
Theorem oms_security_mode5_check aes (h : OmsHeader) :
  security_mode h = 5 ->
  (15 <= List.length (h_telegram h))%nat ->
  List.length (hex_decode (key (h_config h))) = 16%nat ->
  match aes (hex_decode (key (h_config h)))
            (firstn 8 (skipn 2 (h_telegram h)) ++ repeat (h_access_no h) 8)%list
            (skipn 15 (h_telegram h)) with
  | Some d => firstn 2 d <> [0x2F; 0x2F]
  | None => True
  end ->
  oms_security aes h = Done (Err DecryptionFailed).
Proof.
  intros Hm Hl Hk Ha. unfold oms_security. rewrite Hm. cbn [Z.eqb Pos.eqb].
  unfold decrypt_mode5.
  apply Nat.leb_le in Hl. apply Nat.eqb_eq in Hk. rewrite Hl, Hk. cbn [negb].
  revert Ha.
  destruct (h_telegram h) as [| t0 [| t1 [| t2 [| t3 [| t4 [| t5 [| t6 [| t7 [| t8 [| t9 tel]]]]]]]]]];
    try discriminate.
  simpl.
  match goal with |- context [aes ?k ?iv ?ct] => destruct (aes k iv ct) as [d |] end;
    intros Ha; [| reflexivity].
  destruct d as [| d0 [| d1 d]]; [reflexivity | reflexivity |].
  simpl.
  destruct (d0 =? 0x2F) eqn:E0; [| reflexivity].
  destruct (d1 =? 0x2F) eqn:E1; [| reflexivity].
  apply Z.eqb_eq in E0, E1. subst. exfalso. apply Ha. reflexivity.
Qed.

(** Without CRC blocks, a telegram of 10 to 255 bytes with an SND_NR
    C-field (0x44) and an L-field not above its length passes every
    data-link check, and with no [oms] meter configured the decoder
    reports [SensorNotConfigured] (it never panics on such a telegram). *)
Theorem oms_transport_unconfigured (tel : list Z) (l : Z) :
  (10 <= List.length tel <= 255)%nat ->
  nth_error tel 0 = Some l -> l <= Z.of_nat (List.length tel) ->
  nth_error tel 1 = Some 0x44 ->
  oms_transport [] tel false = Done (Err SensorNotConfigured).
Proof.
  intros Hl H0 Hle H1. unfold oms_transport. cbn [obind].
  replace (Z.of_nat (List.length tel) <? 10) with false by (symmetry; apply Z.ltb_ge; lia).
  replace (255 <? Z.of_nat (List.length tel)) with false by (symmetry; apply Z.ltb_ge; lia).
  rewrite (OmsUtilFacts.idx_nth tel 0 l ltac:(lia) H0). cbn [obind].
  replace (Z.of_nat (List.length tel) <? l) with false by (symmetry; apply Z.ltb_ge; lia).
  rewrite (OmsUtilFacts.idx_nth tel 1 _ ltac:(lia) H1). cbn [obind Z.eqb Pos.eqb negb].
  destruct tel as [| t0 [| t1 [| t2 [| t3 [| t4 [| t5 [| t6 [| t7 [| t8 [| t9 tel]]]]]]]]]];
    try (cbn in Hl; lia).
  reflexivity.
Qed.

Lemma oms_transport_unconfigured_witness :
  oms_transport [] (Inputs.oms_tel 0 0) false = Done (Err SensorNotConfigured).
Proof.
  apply (oms_transport_unconfigured (Inputs.oms_tel 0 0) 0x0F);
    [cbn; lia | reflexivity | cbn; lia | reflexivity].
Defined.

Lemma oms_security_bad_key_panics_witness :
  oms_security Inputs.no_aes
    {| h_telegram := Inputs.oms_tel 0 5;
       h_config := {| id := "3ELS3312345678"; name := "water"; key := "0102" |};
       h_access_no := 0x2A; h_config_field := 0x0500; h_proto := [] |} = Panic.
Proof.
  apply oms_security_bad_key_panics; [reflexivity | cbn; discriminate].
Defined.

Lemma oms_security_mode5_check_witness :
  oms_security (fun _ _ ct => Some ct)
    {| h_telegram := (Inputs.oms_tel 0 5 ++ [0x01; 0x02])%list;
       h_config := {| id := "3ELS3312345678"; name := "water";
                      key := "0102030405060708090A0B0C0D0E0F11" |};
       h_access_no := 0x2A; h_config_field := 0x0500; h_proto := [] |}
  = Done (Err DecryptionFailed).
Proof.
  apply oms_security_mode5_check; [reflexivity | cbn; lia | reflexivity | cbn; discriminate].
Defined.

End OmsSecurityFacts.

Module PayloadFacts.
Import DifVif Vif Payload DifSpec DifVifFacts PayloadSpec.

Lemma idx_in (l : list Z) (i : Z) :
  0 <= i < Z.of_nat (List.length l) -> exists b, idx l i = Done b /\ In b l.
Proof.
  intros Hi. unfold idx.
  replace (i <? 0) with false by (symmetry; apply Z.ltb_ge; lia).
  destruct (nth_error l (Z.to_nat i)) as [b |] eqn:E.
  - exists b. split; [reflexivity | eapply nth_error_In; exact E].
  - apply nth_error_None in E. lia.
Qed.

Lemma payload_loop_fillers (payload : list Z) :
  Forall is_filler payload ->
  forall fuel cur ret, 0 <= cur <= Z.of_nat (List.length payload) -> Z.of_nat (List.length payload) - cur < Z.of_nat fuel ->
  payload_loop fuel payload cur ret = Done ret.
Proof.
  intros Hf fuel. induction fuel as [| f IH]; intros cur ret H0 Hlt; [lia |].
  cbn [payload_loop].
  destruct (cur <? Z.of_nat (List.length payload)) eqn:Ec; [| reflexivity].
  apply Z.ltb_lt in Ec.
  destruct (idx_in payload cur) as [b [Hb Hin]]; [lia |].
  rewrite Forall_forall in Hf. specialize (Hf b Hin).
  unfold parse_record, get_dif_function. rewrite Hb. cbn [obind].
  destruct Hf as [-> | [-> | ->]]; cbn [Z.eqb Pos.eqb obind];
    apply IH; lia.
Qed.

(** A payload made only of the bytes 0x00, 0x08 and 0x2F decodes to the
    empty map: each of them is skipped as a DIF without data. *)
Theorem parse_payload_only_fillers (payload : list Z) :
  Forall is_filler payload -> parse_payload payload = Done [].
Proof.
  intros Hf. unfold parse_payload. apply payload_loop_fillers; [exact Hf | lia | lia].
Qed.

Lemma parse_payload_only_fillers_witness :
  Forall is_filler [0x2F; 0x2F; 0x00; 0x08]
  /\ parse_payload [0x2F; 0x2F; 0x00; 0x08] = Done [].
Proof.
  assert (H : Forall is_filler [0x2F; 0x2F; 0x00; 0x08])
    by (repeat constructor; unfold is_filler; lia).
  split; [exact H | exact (parse_payload_only_fillers _ H)].
Defined.

Lemma string_length_app (s t : string) :
  String.length (s ++ t) = (String.length s + String.length t)%nat.
Proof. induction s as [| c s IH]; cbn; [reflexivity | rewrite IH; reflexivity]. Qed.

Lemma unit_key_differs (s : string) : String.eqb (s ++ "_unit") s = false.
Proof.
  apply String.eqb_neq. intros E. apply (f_equal String.length) in E.
  rewrite string_length_app in E. cbn in E. lia.
Qed.

(** A single integer record (DIF 0x01..0x04, 0x06, 0x07, then a primary
    VIF without a handler, then the data bytes) decodes to the field named by
    the VIF arm selected by [vif & 0x7F], holding the little-endian value
    (scaled unless the scaler is 1), and its unit field. *)
Theorem parse_payload_int_record (dif v : Z) (bs : list Z) (a : arm) :
  In dif [1; 2; 3; 4; 6; 7] -> List.length bs = int_dif_size dif -> Forall is_byte bs ->
  v <> 0xFB -> v <> 0xFD ->
  first_arm primary_arms (Z.land v 0x7F) = Some a -> a_fun a = None ->
  parse_payload (dif :: v :: bs)
  = Done [(a_name a,
           let s := eval_scaler v (a_scaler a) in
           if scaler_is_one s then VInt (le_value bs) else VScaled (VInt (le_value bs)) s);
          (a_name a ++ "_unit", VStr (a_unit a))].
Proof.
  intros Hin Hlen Hb Hfb Hfd Ha Hfun.
  pose proof (read_le_spec bs [dif; v] Hb) as R.
  change ([dif; v] ++ bs)%list with (dif :: v :: bs) in R.
  change (Z.of_nat (List.length [dif; v])) with 2 in R.
  apply Z.eqb_neq in Hfb, Hfd.
  unfold parse_payload. cbn [List.length payload_loop].
  replace (0 <? Z.of_nat (S (S (List.length bs)))) with true by (symmetry; apply Z.ltb_lt; lia).
  unfold parse_record, get_dif_function, get_vif_function.
  change (idx (dif :: v :: bs) 0) with (Done dif).
  cbn [obind].
  destruct Hin as [<- | [<- | [<- | [<- | [<- | [<- | []]]]]]];
    cbn [Z.eqb Pos.eqb obind];
    (match goal with |- context [idx ?l (0 + 1)] => change (idx l (0 + 1)) with (Done v) end);
    cbn [obind]; rewrite Hfb, Hfd, Ha; cbn [obind run_dif];
    cbn in Hlen; rewrite Hlen in R; change (0 + 1 + 1) with 2; rewrite R; cbn [obind];
    unfold mk; cbn [vif_function fildname unit scaler vif]; rewrite Hfun;
    cbn [is_number andb];
    (replace (0 + 1 + 1 + _ <? Z.of_nat (S (S (List.length bs)))) with false
       by (symmetry; apply Z.ltb_ge; rewrite Hlen; cbn; lia));
    cbn [map_insert];
    rewrite unit_key_differs;
    destruct (scaler_is_one (eval_scaler v (a_scaler a))); reflexivity.
Qed.

Lemma parse_payload_int_record_witness :
  parse_payload [0x04; 0x83; 0x78; 0x56; 0x34; 0x12]
  = Done [("energy", VInt 0x12345678); ("energy_unit", VStr "Wh")].
Proof.
  rewrite (parse_payload_int_record 4 0x83 [0x78; 0x56; 0x34; 0x12]
             (Arm 0x00 0x07 "energy" (SP 7 (-3)) "Wh" None)).
  - reflexivity.
  - simpl; tauto.
  - reflexivity.
  - repeat constructor; unfold is_byte; lia.
  - lia.
  - lia.
  - vm_compute. reflexivity.
  - reflexivity.
Defined.

Lemma read_le_post (bs pre post : list Z) :
  Forall is_byte bs ->
  read_le (pre ++ bs ++ post) (Z.of_nat (List.length pre)) (List.length bs) = Done (le_value bs).
Proof.
  revert pre. induction bs as [| b bs IH]; intros pre Hb; [reflexivity |].
  inversion Hb as [| ? ? Hb0 Hbs]; subst.
  cbn [List.length read_le].
  pose proof (idx_app pre (b :: bs ++ post) 0) as E. rewrite Z.add_0_r in E.
  cbn [List.app] in E |- *. rewrite E. cbn [nth_error obind].
  replace (pre ++ b :: bs ++ post)%list with ((pre ++ [b]) ++ bs ++ post)%list
    by (rewrite <- app_assoc; reflexivity).
  replace (Z.of_nat (List.length pre) + 1) with (Z.of_nat (List.length (pre ++ [b])))
    by (rewrite length_app; simpl; lia).
  rewrite IH by exact Hbs. cbn [obind le_value].
  rewrite Bits.lor_shiftl_low by (unfold is_byte in Hb0; lia).
  f_equal. lia.
Qed.

Lemma parse_record_int (pre post : list Z) (dif v : Z) (bs : list Z) (a : arm) ret :
  In dif [1; 2; 3; 4; 6; 7] -> List.length bs = int_dif_size dif -> Forall is_byte bs ->
  v <> 0xFB -> v <> 0xFD ->
  first_arm primary_arms (Z.land v 0x7F) = Some a -> a_fun a = None ->
  parse_record (pre ++ dif :: v :: bs ++ post)%list (Z.of_nat (List.length pre)) ret
  = Done (Z.of_nat (List.length pre) + 2 + Z.of_nat (List.length bs),
          map_insert (a_name a ++ "_unit") (VStr (a_unit a))
            (map_insert (a_name a) (int_value v a (le_value bs)) ret)).
Proof.
  intros Hin Hlen Hb Hfb Hfd Ha Hfun.
  pose proof (read_le_post bs (pre ++ [dif; v]) post Hb) as R.
  rewrite <- app_assoc in R. cbn [List.app] in R.
  rewrite length_app in R. cbn [List.length] in R.
  replace (Z.of_nat (List.length pre + 2)) with (Z.of_nat (List.length pre) + 1 + 1) in R by lia.
  pose proof (idx_app pre (dif :: v :: bs ++ post) 0) as I0. rewrite Z.add_0_r in I0.
  pose proof (idx_app pre (dif :: v :: bs ++ post) 1) as I1.
  cbn [nth_error] in I0, I1. change (Z.of_nat 1) with 1 in I1.
  apply Z.eqb_neq in Hfb, Hfd.
  unfold parse_record, get_dif_function. rewrite I0. cbn [obind].
  unfold get_vif_function.
  destruct Hin as [<- | [<- | [<- | [<- | [<- | [<- | []]]]]]];
    cbn [Z.eqb Pos.eqb obind]; rewrite I1; cbn [obind]; rewrite Hfb, Hfd, Ha; cbn [obind run_dif];
    cbn in Hlen; rewrite Hlen in R |- *; rewrite R; cbn [obind];
    unfold mk; cbn [vif_function fildname unit scaler vif]; rewrite Hfun;
    cbn [is_number andb]; unfold int_value;
    (f_equal; f_equal; [cbn; lia |]);
    destruct (scaler_is_one (eval_scaler v (a_scaler a))); reflexivity.
Qed.

(** Two integer records with the same primary VIF (no handler) store the
    same field: the later record overwrites the earlier one, so only the
    second value is kept, in the position of the first. *)
Theorem parse_payload_later_record_overwrites (dif1 dif2 v : Z) (bs1 bs2 : list Z) (a : arm) :
  In dif1 [1; 2; 3; 4; 6; 7] -> List.length bs1 = int_dif_size dif1 -> Forall is_byte bs1 ->
  In dif2 [1; 2; 3; 4; 6; 7] -> List.length bs2 = int_dif_size dif2 -> Forall is_byte bs2 ->
  v <> 0xFB -> v <> 0xFD ->
  first_arm primary_arms (Z.land v 0x7F) = Some a -> a_fun a = None ->
  parse_payload (dif1 :: v :: bs1 ++ dif2 :: v :: bs2)%list
  = Done [(a_name a, int_value v a (le_value bs2)); (a_name a ++ "_unit", VStr (a_unit a))].
Proof.
  intros Hin1 Hl1 Hb1 Hin2 Hl2 Hb2 Hfb Hfd Ha Hfun.
  assert (Hpos1 : (1 <= List.length bs1)%nat)
    by (rewrite Hl1; destruct Hin1 as [<- | [<- | [<- | [<- | [<- | [<- | []]]]]]]; cbn; lia).
  assert (Hpos2 : (1 <= List.length bs2)%nat)
    by (rewrite Hl2; destruct Hin2 as [<- | [<- | [<- | [<- | [<- | [<- | []]]]]]]; cbn; lia).
  pose proof (parse_record_int [] (dif2 :: v :: bs2) dif1 v bs1 a [] Hin1 Hl1 Hb1 Hfb Hfd Ha Hfun) as R1.
  pose proof (parse_record_int (dif1 :: v :: bs1) [] dif2 v bs2 a
                [(a_name a, int_value v a (le_value bs1)); (a_name a ++ "_unit", VStr (a_unit a))]
                Hin2 Hl2 Hb2 Hfb Hfd Ha Hfun) as R2.
  cbn [List.app List.length] in R1.
  rewrite app_nil_r in R2. cbn [List.app List.length] in R2.
  cbn [map_insert] in R1. rewrite unit_key_differs in R1.
  cbn [map_insert] in R2. rewrite String.eqb_refl in R2. cbn [map_insert] in R2.
  rewrite unit_key_differs, String.eqb_refl in R2.
  unfold parse_payload.
  assert (Hn : Z.of_nat (List.length (dif1 :: v :: bs1 ++ dif2 :: v :: bs2)%list)
               = 4 + Z.of_nat (List.length bs1) + Z.of_nat (List.length bs2))
    by (cbn [List.length]; rewrite length_app; cbn [List.length]; lia).
  assert (Hf : S (List.length (dif1 :: v :: bs1 ++ dif2 :: v :: bs2)%list)
               = S (S (S (S (S (List.length bs1 + List.length bs2))))))
    by (cbn [List.length]; rewrite length_app; cbn [List.length]; lia).
  rewrite Hf. cbn [payload_loop]. rewrite Hn.
  replace (0 <? 4 + Z.of_nat (List.length bs1) + Z.of_nat (List.length bs2)) with true by (symmetry; apply Z.ltb_lt; lia).
  change (Z.of_nat 0) with 0 in R1. rewrite R1. cbn [obind].
  replace (0 + 2 + Z.of_nat (List.length bs1) <? 4 + Z.of_nat (List.length bs1) + Z.of_nat (List.length bs2)) with true
    by (symmetry; apply Z.ltb_lt; lia).
  replace (0 + 2 + Z.of_nat (List.length bs1)) with (Z.of_nat (S (S (List.length bs1)))) by lia.
  rewrite R2. cbn [obind].
  replace (Z.of_nat (S (S (List.length bs1))) + 2 + Z.of_nat (List.length bs2) <? 4 + Z.of_nat (List.length bs1) + Z.of_nat (List.length bs2))
    with false by (symmetry; apply Z.ltb_ge; lia).
  reflexivity.
Qed.

Lemma parse_payload_later_record_overwrites_witness :
  parse_payload [0x01; 0x03; 0x05; 0x02; 0x03; 0x34; 0x12]
  = Done [("energy", VInt 0x1234); ("energy_unit", VStr "Wh")].
Proof.
  apply (parse_payload_later_record_overwrites 1 2 3 [0x05] [0x34; 0x12]
           (Arm 0x00 0x07 "energy" (SP 7 (-3)) "Wh" None)).
  all: try (simpl; tauto).
  all: try reflexivity.
  all: try (repeat constructor; unfold is_byte; lia).
  all: try lia.
Defined.

(** Type-G dates (even VIF) of a 16-bit value: the year is computed from
    the low bits of the day byte only ([time & 0xE0 >> 5] is [time & 7] and
    [time >> 16] is 0), the hundred-year part from [time & 3]. *)
Theorem parse_time_point_type_g (v t : Z) :
  Z.land v 1 = 0 -> 0 <= t < 2 ^ 16 ->
  run_parse_time_point v (VInt t)
  = VStr (p2 (Z.land t 0x1F) ++ "." ++ p2 (Z.land (Z.shiftr t 8) 0x0F) ++ "."
          ++ p4 (1900 + 100 * (if Z.land t 3 =? 0 then 1 else Z.land t 3) + Z.land t 7)).
Proof.
  intros Hv Ht.
  unfold run_parse_time_point, as_i64. cbn [is_number negb].
  replace ((- 2 ^ 63 <=? t) && (t <? 2 ^ 63))%bool with true
    by (symmetry; apply andb_true_intro; split; [apply Z.leb_le | apply Z.ltb_lt]; lia).
  rewrite Z.mod_small by lia. rewrite Hv. cbn [Z.eqb Pos.eqb].
  rewrite (Z.shiftr_div_pow2 t 16), Z.div_small by lia.
  change (Z.shiftr 0xE0 5) with 7. change (Z.shiftr 0x60 5) with 3.
  change (Z.shiftr (Z.land 0 0xF0) 1) with 0. rewrite Z.lor_0_r.
  assert (H7 : Z.land t 7 <= 80).
  { change 7 with (Z.ones 3). rewrite Z.land_ones by lia.
    pose proof (Z.mod_pos_bound t (2 ^ 3)). lia. }
  apply Z.leb_le in H7. rewrite H7. rewrite Bool.andb_true_r. reflexivity.
Qed.

Lemma parse_time_point_type_g_witness :
  Z.land 0x6C 1 = 0 /\ 0 <= 0x0C1F < 2 ^ 16
  /\ run_parse_time_point 0x6C (VInt 0x0C1F) = VStr "31.12.2207".
Proof.
  split; [reflexivity | split; [lia |]].
  rewrite (parse_time_point_type_g 0x6C 0x0C1F) by (reflexivity || lia).
  vm_compute. reflexivity.
Defined.

(** An extension byte missing from the 0xFB table makes [get_vif_function]
    skip 1 byte (the extension byte is left to be read as data); missing from
    the 0xFD table it skips 2. *)
Theorem get_vif_function_unknown_extension (l : list Z) (cur e : Z) :
  idx l (cur + 1) = Done e ->
  (idx l cur = Done 0xFB -> first_arm fb_arms (Z.land e 0x7F) = None ->
     get_vif_function l cur = Done (1, unknown ("unknown_at_" ++ dec cur) "" e))
  /\ (idx l cur = Done 0xFD -> first_arm fd_arms (Z.land e 0x7F) = None ->
     get_vif_function l cur = Done (2, unknown ("unknown_at_" ++ dec cur) "" e)).
Proof.
  intros He. split; intros Hv Ha;
    unfold get_vif_function, get_vif_extension_fb, get_vif_extension_fd;
    rewrite Hv; cbn [obind Z.eqb Pos.eqb]; rewrite He; cbn [obind]; rewrite Ha; reflexivity.
Qed.

Lemma get_vif_function_unknown_extension_witness :
  get_vif_function [0x01; 0xFB; 0x02; 0x05] 1 = Done (1, unknown "unknown_at_1" "" 0x02)
  /\ get_vif_function [0x01; 0xFD; 0x60; 0x05] 1 = Done (2, unknown "unknown_at_1" "" 0x60).
Proof.
  split.
  - apply (get_vif_function_unknown_extension [0x01; 0xFB; 0x02; 0x05] 1 2);
      reflexivity.
  - apply (get_vif_function_unknown_extension [0x01; 0xFD; 0x60; 0x05] 1 0x60);
      reflexivity.
Defined.

End PayloadFacts.

Module CadenceFacts.
Import Cadence.

Lemma tick_loop_filter (w : nat) (n : nat) :
  (1 <= w)%nat ->
  forall (c t : nat), (c < w)%nat ->
  tick_loop (Z.of_nat w) (Z.of_nat c) t n
  = filter (fun s => Nat.eqb ((s + 1 + c - t) mod w) 0) (seq t n).
Proof.
  intros Hw. induction n as [| n IH]; intros c t Hc; [reflexivity |].
  cbn [tick_loop seq filter].
  replace (t + 1 + c - t)%nat with (S c) by lia.
  destruct (Z.of_nat c + 1 =? Z.of_nat w) eqn:E.
  - apply Z.eqb_eq in E. assert (Ew : w = S c) by lia. subst w.
    rewrite Nat.Div0.mod_same. cbn [Nat.eqb].
    f_equal. change 0 with (Z.of_nat 0). rewrite IH by lia.
    apply filter_ext_in. intros s Hs. apply in_seq in Hs.
    replace (s + 1 + c - t)%nat with ((s + 1 + 0 - S t) + 1 * S c)%nat by lia.
    rewrite Nat.Div0.mod_add. reflexivity.
  - apply Z.eqb_neq in E.
    rewrite Nat.mod_small by lia. cbn [Nat.eqb].
    replace (Z.of_nat c + 1) with (Z.of_nat (S c)) by lia.
    rewrite IH by lia.
    apply filter_ext_in. intros s Hs. apply in_seq in Hs.
    replace (s + 1 + S c - S t)%nat with (s + 1 + c - t)%nat by lia. reflexivity.
Qed.

(** The tick loop reads a device with [waits_till_read = w >= 1] at
    exactly the ticks among [1..n] that are multiples of [w]. *)
Theorem tick_loop_multiples (w n : nat) :
  (1 <= w)%nat ->
  tick_loop (Z.of_nat w) 0 1 n = filter (fun s => Nat.eqb (s mod w) 0) (seq 1 n).
Proof.
  intros Hw. change 0 with (Z.of_nat 0). rewrite tick_loop_filter by lia.
  apply filter_ext_in. intros s Hs. apply in_seq in Hs.
  replace (s + 1 + 0 - 1)%nat with s by lia. reflexivity.
Qed.

Lemma tick_loop_multiples_witness :
  (1 <= 3)%nat /\ tick_loop 3 0 1 10 = [3%nat; 6%nat; 9%nat].
Proof.
  split; [lia |].
  change (tick_loop 3 0 1 10) with (tick_loop (Z.of_nat 3) 0 1 10).
  rewrite (tick_loop_multiples 3 10) by lia. reflexivity.
Defined.

Lemma fold_min_le (ris : list Z) : forall ri, In ri ris -> fold_right Z.min 60 ris <= ri.
Proof.
  induction ris as [| x l IH]; intros ri Hin; [destruct Hin |].
  destruct Hin as [<- | Hin]; simpl; [lia |]. specialize (IH ri Hin). lia.
Qed.

(** A configured [read_interval] of 0 makes the hub tick 0, and the
    division [read_interval / hub_inveral_sec] then panics. *)
Theorem start_thread_cadence_zero_interval (ris : list Z) :
  Forall (fun ri => 0 <= ri) ris -> In 0 ris -> start_thread_cadence ris = Panic.
Proof.
  intros Hnn Hin.
  assert (Hz : hub_interval ris = 0).
  { rewrite ModbusFacts.hub_interval_min. pose proof (fold_min_le ris 0 Hin).
    assert (0 <= fold_right Z.min 60 ris).
    { clear Hin H. induction Hnn; simpl; lia. }
    lia. }
  unfold start_thread_cadence. rewrite Hz.
  destruct ris as [| ri rest]; [destruct Hin |].
  reflexivity.
Qed.

Lemma start_thread_cadence_zero_interval_witness :
  start_thread_cadence [30; 0; 15] = Panic.
Proof.
  apply start_thread_cadence_zero_interval; [repeat constructor; lia | simpl; tauto].
Defined.

End CadenceFacts.

Module IecLineFacts.
Import Iec.

Lemma trim_start_char (s : string) :
  (exists a, In a (list_ascii_of_string s) /\ Str.is_whitespace a = false) ->
  exists a, In a (list_ascii_of_string (Str.trim_start s)) /\ Str.is_whitespace a = false.
Proof.
  induction s as [| a r IH]; intros [x [Hin Hx]]; [destruct Hin |].
  cbn. destruct (Str.is_whitespace a) eqn:Ea.
  - apply IH. destruct Hin as [-> | Hin]; [congruence |]. exists x; split; assumption.
  - exists x. split; assumption.
Qed.

Lemma rev_str_chars (s : string) a :
  In a (list_ascii_of_string (Str.rev_str s)) <-> In a (list_ascii_of_string s).
Proof.
  unfold Str.rev_str. rewrite list_ascii_of_string_of_list_ascii.
  split; [apply in_rev | intros H; apply -> in_rev; exact H].
Qed.

Lemma trim_bang_nonempty (s : string) :
  Str.starts_with "!" s = true -> String.eqb (Str.trim s) EmptyString = false.
Proof.
  intros H. apply String.eqb_neq.
  assert (Hx : exists a, In a (list_ascii_of_string s) /\ Str.is_whitespace a = false).
  { destruct s as [| a r]; [discriminate |]. exists a. split; [left; reflexivity |].
    cbn in H. apply Ascii.eqb_eq in H. subst a. reflexivity. }
  unfold Str.trim, Str.trim_end. apply trim_start_char in Hx.
  assert (Hy : exists a, In a (list_ascii_of_string (Str.rev_str (Str.trim_start s)))
                 /\ Str.is_whitespace a = false).
  { destruct Hx as [a [Ha Hw]]. exists a. split; [apply rev_str_chars; exact Ha | exact Hw]. }
  apply trim_start_char in Hy. destruct Hy as [a [Ha _]].
  apply rev_str_chars in Ha. intros E. rewrite E in Ha. destruct Ha.
Qed.

Lemma data_lines_bang (pre post : list string) (bang : string) :
  Str.starts_with "!" bang = true ->
  forall mv, data_lines (pre ++ bang :: post) mv = data_lines pre mv.
Proof.
  intros Hb. induction pre as [| l pre IH]; intros mv; cbn [List.app data_lines].
  - rewrite trim_bang_nonempty, Hb by exact Hb. reflexivity.
  - destruct (String.eqb (Str.trim l) EmptyString); [apply IH |].
    destruct (Str.starts_with "!" l); [reflexivity |].
    destruct (parse_obis_line l) as [d | e]; [| apply IH].
    destruct (unit d); apply IH.
Qed.

(** Data lines after the first line starting with ['!'] never reach the
    result: the telegram parses as if it ended there. *)
Theorem parse_lines_ignores_after_bang (id : string) (pre post : list string) (bang : string) :
  Str.starts_with "!" bang = true ->
  parse_lines (id :: pre ++ bang :: post) = parse_lines (id :: pre).
Proof.
  intros Hb. unfold parse_lines.
  destruct (negb (Str.starts_with "/" id)); [reflexivity |].
  destruct (parse_identification_line id); [| reflexivity].
  rewrite data_lines_bang by exact Hb. reflexivity.
Qed.

Lemma parse_lines_ignores_after_bang_witness :
  Str.starts_with "!" "!" = true
  /\ parse_lines ["/ISK5MT174"; "1.8.0(00012.5*kWh)"; "!"; "2.8.0(7*kWh)"]
     = parse_lines ["/ISK5MT174"; "1.8.0(00012.5*kWh)"].
Proof.
  split; [reflexivity |].
  apply (parse_lines_ignores_after_bang "/ISK5MT174" ["1.8.0(00012.5*kWh)"] ["2.8.0(7*kWh)"] "!").
  reflexivity.
Defined.

Lemma data_lines_invalid (pre post : list string) (bad : string) e :
  Str.starts_with "!" bad = false -> parse_obis_line bad = Err e ->
  forall mv, data_lines (pre ++ bad :: post) mv = data_lines (pre ++ post) mv.
Proof.
  intros Hb He. induction pre as [| l pre IH]; intros mv; cbn [List.app data_lines].
  - destruct (String.eqb (Str.trim bad) EmptyString); [reflexivity |].
    rewrite Hb, He. reflexivity.
  - destruct (String.eqb (Str.trim l) EmptyString); [apply IH |].
    destruct (Str.starts_with "!" l); [reflexivity |].
    destruct (parse_obis_line l) as [d | e']; [| apply IH].
    destruct (unit d); apply IH.
Qed.

(** A data line that [parse_obis_line] rejects (and that does not start
    with ['!']) is dropped without error. *)
Theorem parse_lines_drops_invalid_line (id : string) (pre post : list string) (bad : string) e :
  Str.starts_with "!" bad = false -> parse_obis_line bad = Err e ->
  parse_lines (id :: pre ++ bad :: post) = parse_lines (id :: pre ++ post).
Proof.
  intros Hb He. unfold parse_lines.
  destruct (negb (Str.starts_with "/" id)); [reflexivity |].
  destruct (parse_identification_line id); [| reflexivity].
  rewrite (data_lines_invalid pre post bad e Hb He). reflexivity.
Qed.

Lemma parse_lines_drops_invalid_line_witness :
  parse_obis_line "1.8.0 12.5 kWh" = Err InvalidDataLine
  /\ parse_lines ["/ISK5MT174"; "1.8.0 12.5 kWh"; "2.8.0(7*kWh)"]
     = parse_lines ["/ISK5MT174"; "2.8.0(7*kWh)"].
Proof.
  assert (He : parse_obis_line "1.8.0 12.5 kWh" = Err InvalidDataLine) by (vm_compute; reflexivity).
  split; [exact He |].
  apply (parse_lines_drops_invalid_line "/ISK5MT174" [] ["2.8.0(7*kWh)"] "1.8.0 12.5 kWh"
           InvalidDataLine); [reflexivity | exact He].
Defined.

End IecLineFacts.

Module ObisCodeFacts.
Import ObisUtils ObisSpec.

Lemma contains_char_app (c : ascii) (s t : string) :
  Str.contains_char c (s ++ t) = Str.contains_char c s || Str.contains_char c t.
Proof. induction s as [| a r IH]; cbn; [reflexivity | rewrite IH, orb_assoc; reflexivity]. Qed.

Lemma split_no_sep (c : ascii) (s : string) :
  Str.contains_char c s = false -> Str.split c s = [s].
Proof.
  induction s as [| a r IH]; cbn; [reflexivity |].
  intros H. apply orb_false_elim in H as [Ha Hr].
  rewrite Ha, IH by exact Hr. reflexivity.
Qed.

Lemma split_app_sep (c : ascii) (s t : string) :
  Str.contains_char c s = false -> Str.split c (s ++ String c t) = s :: Str.split c t.
Proof.
  induction s as [| a r IH]; cbn; intros H.
  - rewrite Ascii.eqb_refl. reflexivity.
  - apply orb_false_elim in H as [Ha Hr].
    rewrite Ha, IH by exact Hr. reflexivity.
Qed.

Lemma u8_fields_ok : forallb u8_field_ok (seq 0 256) = true.
Proof. vm_compute. reflexivity. Qed.

Lemma dec_u8 (n : Z) : 0 <= n <= 255 ->
  Str.contains_char ":" (dec n) = false /\ Str.contains_char "-" (dec n) = false
  /\ Str.contains_char "." (dec n) = false /\ Str.contains_char "*" (dec n) = false
  /\ (exists v, Str.parse_u8 (dec n) = Some v).
Proof.
  intros Hn. pose proof u8_fields_ok as H. rewrite forallb_forall in H.
  specialize (H (Z.to_nat n) ltac:(apply in_seq; lia)).
  unfold u8_field_ok in H. rewrite Z2Nat.id in H by lia.
  apply andb_prop in H as [H H5]. apply andb_prop in H as [H H4].
  apply andb_prop in H as [H H3]. apply andb_prop in H as [H1 H2].
  apply negb_true_iff in H1, H2, H3, H4.
  repeat split; auto.
  destruct (Str.parse_u8 (dec n)) as [v |]; [exists v; reflexivity | discriminate].
Qed.

Lemma str_app_assoc (s t u : string) : (s ++ t) ++ u = s ++ (t ++ u).
Proof. induction s as [| a r IH]; cbn; [reflexivity | rewrite IH; reflexivity]. Qed.

Lemma str_app_nil_r (s : string) : s ++ "" = s.
Proof. induction s as [| a r IH]; cbn; [reflexivity | rewrite IH; reflexivity]. Qed.

Ltac cc_simp := repeat (first [rewrite contains_char_app | progress (cbn [Str.contains_char Ascii.eqb Bool.eqb orb])]).

(** Every code [A-B:C.D.E] whose fields are decimal numbers in [0..255]
    is accepted, with or without a suffix ['*'] followed by text without
    [':']. *)
Theorem validate_obis_code_accepts (a b c d e : Z) (f : option string) :
  0 <= a <= 255 -> 0 <= b <= 255 -> 0 <= c <= 255 -> 0 <= d <= 255 -> 0 <= e <= 255 ->
  match f with Some t => Str.contains_char ":" t = false | None => True end ->
  validate_obis_code (dec a ++ "-" ++ dec b ++ ":" ++ dec c ++ "." ++ dec d ++ "." ++ dec e
                      ++ match f with Some t => "*" ++ t | None => "" end) = true.
Proof.
  intros Ha Hb Hc Hd He Hf.
  destruct (dec_u8 a Ha) as [Ha1 [Ha2 [Ha3 [Ha4 [va Hva]]]]].
  destruct (dec_u8 b Hb) as [Hb1 [Hb2 [Hb3 [Hb4 [vb Hvb]]]]].
  destruct (dec_u8 c Hc) as [Hc1 [Hc2 [Hc3 [Hc4 [vc Hvc]]]]].
  destruct (dec_u8 d Hd) as [Hd1 [Hd2 [Hd3 [Hd4 [vd Hvd]]]]].
  destruct (dec_u8 e He) as [He1 [He2 [He3 [He4 [ve Hve]]]]].
  assert (Hre : forall tl, dec a ++ "-" ++ dec b ++ ":" ++ dec c ++ "." ++ dec d ++ "." ++ dec e ++ tl
    = (dec a ++ String "-" (dec b)) ++ String ":" ((dec c ++ String "." (dec d ++ String "." (dec e))) ++ tl)).
  { intros tl. repeat (rewrite !str_app_assoc; cbn [String.append]). reflexivity. }
  rewrite Hre. clear Hre.
  set (cde := dec c ++ String "." (dec d ++ String "." (dec e))).
  set (tail := match f with Some t => "*" ++ t | None => "" end).
  assert (Ht1 : Str.contains_char ":" tail = false)
    by (subst tail; destruct f; [exact Hf | reflexivity]).
  unfold validate_obis_code.
  rewrite split_app_sep by (rewrite contains_char_app; cbn; rewrite Ha1, Hb1; reflexivity).
  rewrite split_no_sep
    by (subst cde; cc_simp; rewrite Hc1, Hd1, He1, Ht1; reflexivity).
  rewrite split_app_sep by exact Ha2. rewrite split_no_sep by exact Hb2.
  cbn [List.length Nat.eqb negb].
  assert (Hcde : Str.split "." cde = [dec c; dec d; dec e]).
  { subst cde. rewrite split_app_sep by exact Hc3. rewrite split_app_sep by exact Hd3.
    rewrite split_no_sep by exact He3. reflexivity. }
  assert (Hc4' : Str.contains_char "*" cde = false)
    by (subst cde; cc_simp; rewrite Hc4, Hd4, He4; reflexivity).
  assert (Hsel : (if Str.contains_char "*" (cde ++ tail)
                  then Str.split "." (hd "" (Str.split "*" (cde ++ tail)))
                  else Str.split "." (cde ++ tail)) = [dec c; dec d; dec e]).
  { subst tail. destruct f as [t |].
    - change ("*" ++ t) with (String "*" t).
      rewrite contains_char_app, Hc4'. cbn [Str.contains_char Ascii.eqb orb].
      rewrite split_app_sep by exact Hc4'. exact Hcde.
    - rewrite str_app_nil_r, Hc4'. exact Hcde. }
  rewrite Hsel. cbn [List.length Nat.eqb negb List.app forallb].
  rewrite Hva, Hvb, Hvc, Hvd, Hve. reflexivity.
Qed.

Lemma validate_obis_code_accepts_witness :
  validate_obis_code "1-0:1.8.0" = true /\ validate_obis_code "1-0:255.8.0*255" = true.
Proof.
  split.
  - apply (validate_obis_code_accepts 1 0 1 8 0 None); (lia || exact I).
  - apply (validate_obis_code_accepts 1 0 255 8 0 (Some "255")); (lia || reflexivity).
Defined.

Lemma rfind_absent (c : ascii) (u : string) :
  Str.contains_char c u = false -> Str.rfind c u = None.
Proof.
  induction u as [| a r IH]; cbn; [reflexivity |].
  intros H. apply orb_false_elim in H as [Ha Hr]. rewrite IH, Ha by exact Hr. reflexivity.
Qed.

Lemma rfind_last (c : ascii) (s u : string) :
  Str.contains_char c u = false -> Str.rfind c (s ++ String c u) = Some (String.length s).
Proof.
  intros Hu. induction s as [| a r IH]; cbn.
  - rewrite rfind_absent, Ascii.eqb_refl by exact Hu. reflexivity.
  - rewrite IH. reflexivity.
Qed.

Lemma substring_after (s u : string) (c : ascii) (m : nat) :
  (String.length u <= m)%nat -> substring (S (String.length s)) m (s ++ String c u) = u.
Proof.
  intros Hm. induction s as [| a r IH]; cbn [String.length String.append].
  - change (substring 1 m (String c u)) with (substring 0 m u).
    revert m Hm. induction u as [| b u IHu]; intros m Hm; destruct m; cbn in *;
      try reflexivity; try lia.
    f_equal. apply IHu. lia.
  - change (substring (S (S (String.length r))) m (String a (r ++ String c u)))
      with (substring (S (String.length r)) m (r ++ String c u)).
    exact IH.
Qed.

Lemma string_length_app' (s t : string) :
  String.length (s ++ t) = (String.length s + String.length t)%nat.
Proof. induction s as [| a r IH]; cbn; [reflexivity | rewrite IH; reflexivity]. Qed.

(** [extract_unit] returns the text after the last ['*'], or [None] when
    that text is empty or the value holds no ['*']. *)
Theorem extract_unit_after_star (v u : string) :
  (Str.contains_char "*" u = false ->
   extract_unit (v ++ String "*" u) = (if String.eqb u "" then None else Some u))
  /\ (Str.contains_char "*" v = false -> extract_unit v = None).
Proof.
  split.
  - intros Hu. unfold extract_unit. rewrite rfind_last by exact Hu.
    rewrite substring_after by (rewrite string_length_app'; cbn; lia).
    reflexivity.
  - intros Hv. unfold extract_unit. rewrite rfind_absent by exact Hv. reflexivity.
Qed.

Lemma extract_unit_after_star_witness :
  extract_unit ("00012.5" ++ String "*" "kWh") = Some "kWh"
  /\ extract_unit ("12.5" ++ String "*" "") = None
  /\ extract_unit "12.5" = None.
Proof.
  split; [| split].
  - exact (proj1 (extract_unit_after_star "00012.5" "kWh") eq_refl).
  - exact (proj1 (extract_unit_after_star "12.5" "") eq_refl).
  - exact (proj2 (extract_unit_after_star "12.5" "") eq_refl).
Defined.

End ObisCodeFacts.
